(** * The geth EVM wrapper of ethermint: precompile table and active list

    A shallow embedding of [x/evm/vm/geth/geth.go]: the constructor [NewEVM],
    which merges the built-in precompiled contracts of go-ethereum with the
    chain-specific ones, and the accessors of the wrapper. The source file
    holds two revisions of the package; the embedding follows the one whose
    wrapper has the fields [precompiles] and [activePrecompiles].

    Go values are modelled as follows.
    - [common.Address] is a [[20]byte] array: a vector of twenty bytes.
    - A Go map is a reference: map objects live in a store and are named by
      locations; a wrapper holds the location of its table, not its entries.
    - Operations that read or write map objects run in a small monad over
      the store; a run-time panic is the monad's failure.
    - The order in which [range] enumerates a map is picked by the Go
      runtime: it is an argument of the constructor.
    - A slice of addresses is the list of its elements in the properties
      of one construction. Where two constructions meet, it is a reference
      to an array of the store, with a length and a capacity: module
      [InPlace] gives the constructor over such slices, with the writes of
      [append] and [sort.SliceStable] into the slice of the base VM.

    The second part embeds the helpers of [app/utils.go] that assemble
    accounts, genesis states and applications for tests and simulations. *)

From Stdlib Require Import ZArith.
From Stdlib.Strings Require Import Byte.
From stdpp Require Import base option list sorting vector countable gmap
  strings.

Local Open Scope Z_scope.

(** ** Bytes and addresses (package [common]) *)

#[global] Instance byte_eq_dec : EqDecision byte := Byte.byte_eq_dec.

#[global] Instance byte_countable : Countable byte :=
  inj_countable Byte.to_N Byte.of_N Byte.of_to_N.

Definition AddressLength : nat := 20.

(** [type Address [AddressLength]byte] *)
Definition Address : Type := vec byte AddressLength.

(** [func (a Address) Bytes() []byte] *)
Definition Bytes (a : Address) : list byte := vec_to_list a.

(** The first [n] elements of [l] as an array, missing ones being [d]. *)
Fixpoint array_of_list {A} (d : A) (n : nat) (l : list A) : vec A n :=
  match n with
  | O => [#]
  | S n' =>
      match l with
      | [] => d ::: array_of_list d n' []
      | x :: l' => x ::: array_of_list d n' l'
      end
  end.

(** [func BytesToAddress(b []byte) Address]: when [b] is longer than an
    address it is cropped from the left, and it is copied to the right end
    of a zeroed array. *)
Definition BytesToAddress (b : list byte) : Address :=
  let b := drop (length b - AddressLength) b in
  array_of_list x00 AddressLength
    (replicate (AddressLength - length b) x00 ++ b).

#[global] Instance Bytes_inj : Inj (=) (=) Bytes.
Proof. intros a b. apply vec_to_list_inj2. Qed.

#[global] Instance Address_eq_dec : EqDecision Address := _.

#[global] Instance Address_countable : Countable Address.
Proof.
  refine (inj_countable' Bytes BytesToAddress _).
  intros a. unfold BytesToAddress, Bytes.
  pose proof (length_vec_to_list a) as Hlen.
  rewrite Hlen, Nat.sub_diag, drop_0, Hlen, Nat.sub_diag. simpl app.
  assert (∀ n (v : vec byte n), array_of_list x00 n (vec_to_list v) = v)
    as Harray; [|apply Harray].
  intros n v. induction v as [|x n v IH]; simpl; [done|]. by rewrite IH.
Defined.

(** [type Hash [HashLength]byte] *)
Definition HashLength : nat := 32.
Definition Hash : Type := vec byte HashLength.

(** ** [bytes.Compare] *)

(** [func Compare(a, b []byte) int]: the lexicographic comparison of two
    byte slices, bytes compared as unsigned numbers; the result is [0] if
    [a == b], [-1] if [a < b] and [+1] if [a > b]. *)
Fixpoint bytes_Compare (a b : list byte) : Z :=
  match a, b with
  | [], [] => 0
  | [], _ :: _ => -1
  | _ :: _, [] => 1
  | x :: a', y :: b' =>
      if (Byte.to_N x <? Byte.to_N y)%N then -1
      else if (Byte.to_N y <? Byte.to_N x)%N then 1
      else bytes_Compare a' b'
  end.

(** ** [sort.SliceStable] *)

(** [func SliceStable(x any, less func(i, j int) bool)] sorts the slice with
    the given comparison and keeps equal elements in their original order.
    The embedding is the stable insertion sort: an element goes in front of
    the first element of the sorted rest that is not less than it. *)
Section sort.
Context {A : Type} (less : A → A → bool).

Fixpoint insert_sorted (x : A) (l : list A) : list A :=
  match l with
  | [] => [x]
  | y :: l' => if less y x then y :: insert_sorted x l' else x :: l
  end.

Definition sort_SliceStable (l : list A) : list A :=
  foldr insert_sorted [] l.
End sort.

(** ** Block and transaction contexts (package [vm]) *)

(** A [*big.Int] or [*common.Hash] is a pointer: [None] is [nil]. *)
Record vm_BlockContext := {
  Coinbase : Address;
  GasLimit : Z;
  BlockNumber : option Z;
  Time : option Z;
  Difficulty : option Z;
  BaseFee : option Z;
  Random : option Hash;
}.

Record vm_TxContext := {
  Origin : Address;
  GasPrice : option Z;
}.

(** [p != nil] *)
Definition not_nil {A} (p : option A) : bool :=
  match p with Some _ => true | None => false end.

(** ** What the wrapper consumes from go-ethereum and cosmos-sdk

    The base VM is an external collaborator. Its types are kept abstract,
    together with the three functions of it that the constructor calls. A
    [vm.PrecompiledContract] is an interface value; the only method of it
    used here is [Address()]. *)
Class GoEthereum := {
  vm_StateDB : Type;
  vm_Config : Type;
  params_ChainConfig : Type;
  params_Rules : Type;
  sdk_Context : Type;
  vm_PrecompiledContract : Type;
  (** [func (ContractRef) Address() common.Address] *)
  Contract_Address : vm_PrecompiledContract → Address;
  (** [func (c *ChainConfig) Rules(num *big.Int, isMerge bool) Rules] *)
  ChainConfig_Rules : params_ChainConfig → option Z → bool → params_Rules;
  (** The entries of the table [vm.DefaultPrecompiles(rules)]. *)
  DefaultPrecompiles :
    params_Rules → gmap Address vm_PrecompiledContract;
  (** [func DefaultActivePrecompiles(rules params.Rules) []common.Address] *)
  DefaultActivePrecompiles : params_Rules → list Address;
}.

(** A location of a map object in the store. *)
Definition loc : Type := positive.

(** A value of a Go map type: [nil] or a reference to a map object. *)
Definition mapref : Type := option loc.

(** [type PrecompiledContracts map[common.Address]vm.PrecompiledContract]
    (package [evm]): the entries of one map object. *)
Abbreviation PrecompiledContracts := (gmap Address vm_PrecompiledContract).

(** The map objects that exist, by location. *)
Abbreviation Store := (gmap loc PrecompiledContracts).

Section geth.
Context {geth : GoEthereum}.

(** A computation over the store that returns an [A] or panics. *)
Definition Go (A : Type) : Type := Store → option (A * Store).

#[global] Instance Go_ret : MRet Go := λ A x σ, Some (x, σ).

#[global] Instance Go_bind : MBind Go := λ A B k m σ,
  match m σ with
  | Some (x, σ') => k x σ'
  | None => None
  end.

(** A new map object with the entries [m]. *)
Definition map_make (m : PrecompiledContracts) : Go mapref := λ σ,
  let l := fresh (dom σ) in Some (Some l, <[l:=m]> σ).

(** [v, ok = m[k]]: a [nil] map has no entry. *)
Definition map_index (r : mapref) (k : Address)
    : Go (option vm_PrecompiledContract * bool) := λ σ,
  match r with
  | None => Some ((None, false), σ)
  | Some l =>
      m ← σ !! l;
      Some (match m !! k with
            | Some v => (Some v, true)
            | None => (None, false)
            end, σ)
  end.

(** [m[k] = v]: an assignment to an entry of a [nil] map panics. *)
Definition map_assign (r : mapref) (k : Address)
    (v : vm_PrecompiledContract) : Go unit := λ σ,
  match r with
  | None => None
  | Some l => m ← σ !! l; Some ((), <[l:=<[k:=v]> m]> σ)
  end.

(** The order in which [range] enumerates the entries of a map: the Go
    runtime picks it, and it is some enumeration of the entries. *)
Record MapRange := {
  range_order :> PrecompiledContracts →
                 list (Address * vm_PrecompiledContract);
  range_order_perm : ∀ m, range_order m ≡ₚ map_to_list m;
}.

(** The entries that [for k, v := range m] visits, in order; a [nil] map
    has none. The body of the only such loop below does not write to the
    map it ranges over. *)
Definition map_range (rng : MapRange) (r : mapref)
    : Go (list (Address * vm_PrecompiledContract)) := λ σ,
  match r with
  | None => Some ([], σ)
  | Some l => m ← σ !! l; Some (rng m, σ)
  end.

(** [type EVM struct] of package [vm]: the base VM, of which the wrapper
    reads the fields below. *)
Record vm_EVM := {
  vm_Context : vm_BlockContext;
  vm_TxContext_of : vm_TxContext;
  vm_StateDB_of : vm_StateDB;
  vm_chainConfig : params_ChainConfig;
  vm_Config_of : vm_Config;
}.

(** [func NewEVM(blockCtx, txCtx, statedb, chainConfig, config) *EVM] of
    package [vm]. *)
Definition vm_NewEVM (blockCtx : vm_BlockContext) (txCtx : vm_TxContext)
    (stateDB : vm_StateDB) (chainConfig : params_ChainConfig)
    (config : vm_Config) : vm_EVM :=
  {| vm_Context := blockCtx; vm_TxContext_of := txCtx;
     vm_StateDB_of := stateDB; vm_chainConfig := chainConfig;
     vm_Config_of := config |}.

(** Modelled from the spec: [vm.DefaultPrecompiles], a function of
    go-ethereum, returns a Go map; the Precompile Table is "built fresh
    per execution context", so the map it returns is a new map object,
    holding the built-in entries for the rules. *)
Definition vm_DefaultPrecompiles (rules : params_Rules) : Go mapref :=
  map_make (DefaultPrecompiles rules).

(** ** The wrapper *)

(** [type EVM struct { *vm.EVM; precompiles; activePrecompiles }] *)
Record EVM := {
  EVM_embedded : vm_EVM;
  precompiles : mapref;
  activePrecompiles : list Address;
}.

(** The comparison handed to [sort.SliceStable]:
    [bytes.Compare(a[i].Bytes(), a[j].Bytes()) < 0]. *)
Definition less (a b : Address) : bool :=
  bool_decide (bytes_Compare (Bytes a) (Bytes b) < 0).

(** The loop [for k, v := range customPrecompiles] over the entries [kvs]
    in the order of the enumeration. *)
Fixpoint range_customPrecompiles
    (kvs : list (Address * vm_PrecompiledContract))
    (precompiles : mapref) (activePrecompiles : list Address)
    : Go (list Address) :=
  match kvs with
  | [] => mret activePrecompiles
  | (k, v) :: kvs' =>
      _ ← map_assign precompiles k v;
      range_customPrecompiles kvs' precompiles
        (activePrecompiles ++ [Contract_Address v])
  end.

(** [func NewEVM(ctx, blockCtx, txCtx, stateDB, chainConfig, config,
    getPrecompilesExtended) evm.EVM]. The callback hands back a map that
    it holds, or [nil]. *)
Definition NewEVM (rng : MapRange)
    (ctx : sdk_Context) (blockCtx : vm_BlockContext)
    (txCtx : vm_TxContext) (stateDB : vm_StateDB)
    (chainConfig : params_ChainConfig) (config : vm_Config)
    (getPrecompilesExtended : sdk_Context → vm_EVM → mapref) : Go EVM :=
  let newEvm_EVM := vm_NewEVM blockCtx txCtx stateDB chainConfig config in
  let rules :=
    ChainConfig_Rules chainConfig (BlockNumber blockCtx)
      (not_nil (Random blockCtx)) in
  precompiles ← vm_DefaultPrecompiles rules;
  let activePrecompiles := DefaultActivePrecompiles rules in
  let customPrecompiles := getPrecompilesExtended ctx newEvm_EVM in
  kvs ← map_range rng customPrecompiles;
  activePrecompiles ←
    range_customPrecompiles kvs precompiles activePrecompiles;
  let activePrecompiles := sort_SliceStable less activePrecompiles in
  mret {| EVM_embedded := newEvm_EVM;
          precompiles := precompiles;
          activePrecompiles := activePrecompiles |}.

(** [func (e EVM) Context() vm.BlockContext] *)
Definition Context (e : EVM) : Go vm_BlockContext :=
  mret (vm_Context (EVM_embedded e)).

(** [func (e EVM) TxContext() vm.TxContext] *)
Definition TxContext (e : EVM) : Go vm_TxContext :=
  mret (vm_TxContext_of (EVM_embedded e)).

(** [func (e EVM) Config() vm.Config] *)
Definition Config (e : EVM) : Go vm_Config :=
  mret (vm_Config_of (EVM_embedded e)).

(** [func (e EVM) Precompile(addr) (p vm.PrecompiledContract, found bool)]:
    [p, found = e.precompiles[addr]]; a missing contract is the [nil]
    interface value, [None]. *)
Definition Precompile (e : EVM) (addr : Address)
    : Go (option vm_PrecompiledContract * bool) :=
  map_index (precompiles e) addr.

(** [func (e *EVM) ActivePrecompiles(_ params.Rules) []common.Address] *)
Definition ActivePrecompiles (e : EVM) (_ : params_Rules)
    : Go (list Address) :=
  mret (activePrecompiles e).

End geth.

(** ** Slices as references

    A slice value of Go is a reference to an array, with a length and a
    capacity; the arrays live in the store next to the map objects.
    [append] writes into the array of the slice it is given when the
    capacity allows it and moves to a new array otherwise, and
    [sort.SliceStable] permutes the elements of the array in place. The
    constructor does both to the slice that the base VM hands out
    (geth.go, lines 125 to 135). The section below gives the constructor
    over such slices; the definitions above give it over the elements that
    the slices hold. *)

(** The zero value of [common.Address]. *)
Definition Address_zero : Address := vreplicate AddressLength x00.

(** A slice of addresses: the array it refers to ([None] for the [nil]
    slice), its length and its capacity. The slice starts at the first
    element of the array. *)
Record slice := Slice {
  slice_array : option loc;
  slice_len : nat;
  slice_cap : nat;
}.

(** The arrays that exist, by location. *)
Abbreviation Arrays := (gmap loc (list Address)).

(** The capacity that [append] picks for the new array of a slice of
    capacity [oldCap] that has to hold [needed] elements: the Go runtime
    picks it, and it is large enough. *)
Record Growth := {
  growslice :> nat → nat → nat;
  growslice_enough : ∀ oldCap needed, (needed ≤ growslice oldCap needed)%nat;
}.

(** The elements that a slice holds. *)
Definition slice_elements (arrays : Arrays) (s : slice)
    : option (list Address) :=
  match slice_array s with
  | None => if decide (slice_len s = 0%nat) then Some [] else None
  | Some l =>
      a ← arrays !! l;
      if decide (slice_len s ≤ length a)%nat
      then Some (take (slice_len s) a) else None
  end.

(** [append(s, x)]: within the capacity the element is written into the
    array of [s]; beyond it the elements are copied into a new array. *)
Definition slice_append (grow : Growth) (s : slice) (x : Address)
    (arrays : Arrays) : option (slice * Arrays) :=
  if decide (slice_len s < slice_cap s)%nat then
    l ← slice_array s;
    a ← arrays !! l;
    if decide (slice_len s < length a)%nat
    then Some ({| slice_array := Some l; slice_len := S (slice_len s);
                  slice_cap := slice_cap s |},
               <[l:=<[slice_len s:=x]> a]> arrays)
    else None
  else
    old ← slice_elements arrays s;
    let newcap := grow (slice_cap s) (S (slice_len s)) in
    let l := fresh (dom arrays) in
    Some ({| slice_array := Some l; slice_len := S (slice_len s);
             slice_cap := newcap |},
          <[l:=old ++ x :: replicate (newcap - S (slice_len s)) Address_zero]>
            arrays).

(** [sort.SliceStable(s, less)]: the elements of [s] are put in order
    inside the array of [s]. *)
Definition sort_SliceStable_in_place (less : Address → Address → bool)
    (s : slice) (arrays : Arrays) : option (unit * Arrays) :=
  match slice_array s with
  | None => if decide (slice_len s = 0%nat) then Some ((), arrays) else None
  | Some l =>
      a ← arrays !! l;
      if decide (slice_len s ≤ length a)%nat
      then Some ((), <[l:=sort_SliceStable less (take (slice_len s) a)
                          ++ drop (slice_len s) a]> arrays)
      else None
  end.

Module InPlace.
Section in_place.
Context {geth : GoEthereum}.

(** The store: the map objects and the arrays. *)
Record Heap := {
  heap_maps : Store;
  heap_arrays : Arrays;
}.

(** A computation over the store that returns an [A] or panics. *)
Definition GoHeap (A : Type) : Type := Heap → option (A * Heap).

#[global] Instance GoHeap_ret : MRet GoHeap := λ A x h, Some (x, h).

#[global] Instance GoHeap_bind : MBind GoHeap := λ A B k m h,
  match m h with
  | Some (x, h') => k x h'
  | None => None
  end.

(** A computation on the map objects leaves the arrays alone. *)
Definition on_maps {A : Type} (m : Go A) : GoHeap A := λ h,
  match m (heap_maps h) with
  | Some (x, σ) => Some (x, {| heap_maps := σ; heap_arrays := heap_arrays h |})
  | None => None
  end.

(** A computation on the arrays leaves the map objects alone. *)
Definition on_arrays {A : Type} (m : Arrays → option (A * Arrays))
    : GoHeap A := λ h,
  match m (heap_arrays h) with
  | Some (x, arrays) =>
      Some (x, {| heap_maps := heap_maps h; heap_arrays := arrays |})
  | None => None
  end.

(** [type EVM struct { *vm.EVM; precompiles; activePrecompiles }] *)
Record EVM := {
  EVM_embedded : vm_EVM;
  precompiles : mapref;
  activePrecompiles : slice;
}.

(** The loop [for k, v := range customPrecompiles] over the entries [kvs]
    in the order of the enumeration. *)
Fixpoint range_customPrecompiles (grow : Growth)
    (kvs : list (Address * vm_PrecompiledContract))
    (precompiles : mapref) (activePrecompiles : slice) : GoHeap slice :=
  match kvs with
  | [] => mret activePrecompiles
  | (k, v) :: kvs' =>
      _ ← on_maps (map_assign precompiles k v);
      activePrecompiles ←
        on_arrays (slice_append grow activePrecompiles (Contract_Address v));
      range_customPrecompiles grow kvs' precompiles activePrecompiles
  end.

(** [func NewEVM(ctx, blockCtx, txCtx, stateDB, chainConfig, config,
    getPrecompilesExtended) evm.EVM]. [vm_DefaultActivePrecompiles] is
    the slice that [vm.DefaultActivePrecompiles] of the base VM hands out
    for the rules. Its array is in the store when the constructor gets
    it, whether the base VM has just made it or keeps it from one call to
    the next: that is decided in go-ethereum. *)
Definition NewEVM (rng : MapRange) (grow : Growth)
    (vm_DefaultActivePrecompiles : params_Rules → slice)
    (ctx : sdk_Context) (blockCtx : vm_BlockContext)
    (txCtx : vm_TxContext) (stateDB : vm_StateDB)
    (chainConfig : params_ChainConfig) (config : vm_Config)
    (getPrecompilesExtended : sdk_Context → vm_EVM → mapref)
    : GoHeap EVM :=
  let newEvm_EVM := vm_NewEVM blockCtx txCtx stateDB chainConfig config in
  let rules :=
    ChainConfig_Rules chainConfig (BlockNumber blockCtx)
      (not_nil (Random blockCtx)) in
  precompiles ← on_maps (vm_DefaultPrecompiles rules);
  let activePrecompiles := vm_DefaultActivePrecompiles rules in
  let customPrecompiles := getPrecompilesExtended ctx newEvm_EVM in
  kvs ← on_maps (map_range rng customPrecompiles);
  activePrecompiles ←
    range_customPrecompiles grow kvs precompiles activePrecompiles;
  _ ← on_arrays (sort_SliceStable_in_place less activePrecompiles);
  mret {| EVM_embedded := newEvm_EVM;
          precompiles := precompiles;
          activePrecompiles := activePrecompiles |}.

(** [func (e EVM) Precompile(addr) (p vm.PrecompiledContract, found bool)] *)
Definition Precompile (e : EVM) (addr : Address)
    : GoHeap (option vm_PrecompiledContract * bool) :=
  on_maps (map_index (precompiles e) addr).

(** [func (e *EVM) ActivePrecompiles(_ params.Rules) []common.Address]:
    the slice of the wrapper itself, not a copy of it. *)
Definition ActivePrecompiles (e : EVM) (_ : params_Rules) : GoHeap slice :=
  mret (activePrecompiles e).

End in_place.
End InPlace.

(** ** The vocabulary of the properties *)

(** The addresses [0x01], [0x05], [0x09] and [0x0a]. *)
Definition a01 : Address := BytesToAddress [x01].
Definition a05 : Address := BytesToAddress [x05].
Definition a09 : Address := BytesToAddress [x09].
Definition a0a : Address := BytesToAddress [x0a].

(** The unsigned byte-wise order of addresses, strict and not. *)
Definition address_lt (a b : Address) : Prop :=
  bytes_Compare (Bytes a) (Bytes b) < 0.

Definition address_le (a b : Address) : Prop :=
  bytes_Compare (Bytes a) (Bytes b) ≤ 0.

#[global] Instance address_le_dec : RelDecision address_le :=
  λ a b, decide (bytes_Compare (Bytes a) (Bytes b) ≤ 0).

(** A slice is well formed in a store: its length is within its capacity,
    and its capacity within the array it refers to. *)
Definition slice_ok (arrays : Arrays) (s : slice) : Prop :=
  (slice_len s ≤ slice_cap s)%nat ∧
  match slice_array s with
  | None => slice_cap s = 0%nat
  | Some l => ∃ a, arrays !! l = Some a ∧ (slice_cap s ≤ length a)%nat
  end.

(** The appends of the merge loop, one address after the other. *)
Fixpoint slice_appends (grow : Growth) (s : slice) (xs : list Address)
    (arrays : Arrays) : option (slice * Arrays) :=
  match xs with
  | [] => Some (s, arrays)
  | x :: xs' =>
      match slice_append grow s x arrays with
      | Some (s', arrays') => slice_appends grow s' xs' arrays'
      | None => None
      end
  end.

Section vocabulary.
Context {geth : GoEthereum}.

(** The entries of the map that a map value denotes in a store. *)
Definition entries (σ : Store) (r : mapref)
    : option PrecompiledContracts :=
  match r with
  | None => Some ∅
  | Some l => σ !! l
  end.

(** The chain rules of an execution context. *)
Definition chain_rules (chainConfig : params_ChainConfig)
    (blockCtx : vm_BlockContext) : params_Rules :=
  ChainConfig_Rules chainConfig (BlockNumber blockCtx)
    (not_nil (Random blockCtx)).

(** The addresses that the contracts of an extension mapping report, in
    the order of a listing of its entries. *)
Definition reported (kvs : list (Address * vm_PrecompiledContract))
    : list Address :=
  (λ kv, Contract_Address kv.2) <$> kvs.

(** One step of the merge loop on the entries of the table. *)
Definition assign_entry (m : PrecompiledContracts)
    (kv : Address * vm_PrecompiledContract) : PrecompiledContracts :=
  <[kv.1:=kv.2]> m.
End vocabulary.

(** ** A concrete base VM for the scenarios

    A contract is a name and the address it reports; a rule set lists the
    built-in contracts it activates; a chain configuration maps the block
    height and the presence of randomness to a rule set. *)
Module Scenario.

Record contract := Contract { contract_id : N; contract_addr : Address }.

#[export] Instance base_vm : GoEthereum := {|
  vm_StateDB := unit;
  vm_Config := unit;
  params_ChainConfig := option Z → bool → list contract;
  params_Rules := list contract;
  sdk_Context := unit;
  vm_PrecompiledContract := contract;
  Contract_Address := contract_addr;
  ChainConfig_Rules := λ c num isMerge, c num isMerge;
  DefaultPrecompiles := λ rules,
    list_to_map ((λ c, (contract_addr c, c)) <$> rules);
  DefaultActivePrecompiles := λ rules, contract_addr <$> rules;
|}.

Definition builtin01 : contract := Contract 1 a01.
Definition builtin09 : contract := Contract 9 a09.
Definition ext05 : contract := Contract 105 a05.
(** A custom contract at the built-in address [0x01]. *)
Definition custom01 : contract := Contract 101 a01.
(** A custom contract that reports [0x0a] as its address. *)
Definition custom0a : contract := Contract 110 a0a.

(** The chain activates the built-ins at [0x01] and [0x09]. *)
Definition chain : option Z → bool → list contract :=
  λ _ _, [builtin01; builtin09].

Definition blockCtx : vm_BlockContext :=
  {| Coinbase := a0a; GasLimit := 30000000; BlockNumber := Some 7;
     Time := Some 1700000000; Difficulty := Some 0; BaseFee := Some 8;
     Random := None |}.

(** A chain that activates the built-in at [0x09] only once block
    randomness is present. *)
Definition chain_merge : option Z → bool → list contract :=
  λ _ isMerge, if isMerge then [builtin01; builtin09] else [builtin01].

(** A chain whose rule set lists its built-ins from the highest address
    to the lowest. *)
Definition chain_unsorted : option Z → bool → list contract :=
  λ _ _, [builtin09; builtin01].

(** Two blocks of the same height with randomness, which differ in the
    randomness, the time, the proposer and the gas limit. *)
Definition blockCtx_random : vm_BlockContext :=
  {| Coinbase := a0a; GasLimit := 30000000; BlockNumber := Some 7;
     Time := Some 1700000000; Difficulty := Some 0; BaseFee := Some 8;
     Random := Some (vreplicate HashLength xaa) |}.

Definition blockCtx_random' : vm_BlockContext :=
  {| Coinbase := a05; GasLimit := 15000000; BlockNumber := Some 7;
     Time := Some 1700000012; Difficulty := Some 0; BaseFee := Some 9;
     Random := Some (vreplicate HashLength xbb) |}.

Definition txCtx : vm_TxContext :=
  {| Origin := a0a; GasPrice := Some 1 |}.

(** The runtime enumerates a map in the order of its listing. *)
Definition in_order : MapRange :=
  {| range_order := map_to_list; range_order_perm := λ m, reflexivity _ |}.

(** The runtime enumerates a map in the opposite order. *)
Definition in_reverse : MapRange :=
  {| range_order := λ m, reverse (map_to_list m);
     range_order_perm := λ m, reverse_Permutation _ |}.

(** The extension map is the map object at location [1]. *)
Definition ext_loc : loc := 1%positive.
Definition provider : sdk_Context → vm_EVM → mapref := λ _ _, Some ext_loc.

Definition store_of (E : gmap Address contract) : Store := {[ ext_loc := E ]}.

(** The construction for the chain of the two built-ins. *)
Definition build (rng : MapRange) (E : gmap Address contract)
    : option (EVM * Store) :=
  NewEVM rng () blockCtx txCtx () chain () provider (store_of E).

(** An extension that overrides the built-in at [0x01]. *)
Definition E_override : gmap Address contract := {[ a01 := custom01 ]}.

(** An extension that overrides the built-in at [0x01] and adds a
    contract at [0x05]. *)
Definition E_two : gmap Address contract :=
  {[ a01 := custom01; a05 := ext05 ]}.

(** An extension whose entry at [0x01] is a contract that reports
    [0x0a]. *)
Definition E_misfiled : gmap Address contract := {[ a01 := custom0a ]}.

(** A store that holds another map object beside the extension. *)
Definition store_with_other (E : gmap Address contract) : Store :=
  <[5%positive:={[ a0a := custom0a ]}]> (store_of E).

End Scenario.

(** ** A base VM that keeps the slice it hands out

    The base VM of the scenarios above keeps its active addresses in an
    array of three elements; the slice that it hands out, the same at
    every call, holds the first two. *)
Module KeptSlice.
Import Scenario.

Definition builtin_loc : loc := 1%positive.

Definition vm_DefaultActivePrecompiles : list contract → slice := λ _,
  {| slice_array := Some builtin_loc; slice_len := 2; slice_cap := 3 |}.

(** The runtime doubles the capacity of a slice that is full. *)
Definition doubling : Growth :=
  {| growslice := λ oldCap needed, (needed `max` (2 * oldCap))%nat;
     growslice_enough := λ oldCap needed, Nat.le_max_l _ _ |}.

(** An extension that adds a contract at [0x05]. *)
Definition E_05 : gmap Address contract := {[ a05 := ext05 ]}.

(** The store before the first construction: the extension map, and the
    array of the base VM with the built-in addresses [0x01] and [0x09]. *)
Definition heap_of (E : gmap Address contract) : InPlace.Heap :=
  {| InPlace.heap_maps := store_of E;
     InPlace.heap_arrays := {[ builtin_loc := [a01; a09; Address_zero] ]} |}.

(** The construction for the chain of the two built-ins. *)
Definition build (rng : MapRange) : InPlace.GoHeap InPlace.EVM :=
  InPlace.NewEVM rng doubling vm_DefaultActivePrecompiles () blockCtx txCtx
    () chain () provider.

(** The same base VM with a slice that has no room left: its capacity is
    its length. *)
Definition vm_DefaultActivePrecompiles_full : list contract → slice := λ _,
  {| slice_array := Some builtin_loc; slice_len := 2; slice_cap := 2 |}.

Definition build_full (rng : MapRange) : InPlace.GoHeap InPlace.EVM :=
  InPlace.NewEVM rng doubling vm_DefaultActivePrecompiles_full () blockCtx
    txCtx () chain () provider.

End KeptSlice.

(** * The test and simulation helpers of [app/utils.go]

    The helpers assemble accounts and genesis states out of calls into
    cosmos-sdk, cometbft and other packages. Those are kept abstract; what
    is embedded is the code of the helpers: their loops, their writes to
    slices and maps, and their panics. *)

(** ** Panics and outcomes *)

(** An [error] is its message. *)
Definition error : Type := string.

Inductive panic : Type :=
  | panic_makeslice
      (** [make] with a negative length *)
  | panic_index
      (** an index out of range *)
  | panic_nil_map
      (** an assignment to an entry of a [nil] map *)
  | panic_nil_dereference
      (** a method call on a [nil] interface value *)
  | panic_type_assertion
      (** [x.(T)] on a value of another type *)
  | panic_error (err : error)
      (** [panic(err)] *)
  | panic_message (msg : string).
      (** [panic("...")] *)

(** A call returns a value or panics. *)
Inductive outcome (A : Type) : Type :=
  | Returns (a : A)
  | Panics (p : panic).
Arguments Returns {A} a.
Arguments Panics {A} p.

#[global] Instance outcome_ret : MRet outcome := λ A, Returns.

#[global] Instance outcome_bind : MBind outcome := λ A B k m,
  match m with
  | Returns a => k a
  | Panics p => Panics p
  end.

(** [if err != nil { panic(err) }], and the [Must] functions of a codec. *)
Definition must {A} (r : error + A) : outcome A :=
  match r with
  | inl err => Panics (panic_error err)
  | inr a => Returns a
  end.

(** [s[i]] *)
Definition slice_index {A} (i : nat) (s : list A) : outcome A :=
  match s !! i with
  | Some x => Returns x
  | None => Panics panic_index
  end.

(** [s[i] = x], and [s[i].f = y] with [set] the update of the field. *)
Definition slice_update {A} (i : nat) (set : A → A) (s : list A)
    : outcome (list A) :=
  match s !! i with
  | Some x => Returns (<[i:=set x]> s)
  | None => Panics panic_index
  end.

(** A method call on an interface value that may be [nil]. *)
Definition deref {A} (x : option A) : outcome A :=
  match x with
  | Some a => Returns a
  | None => Panics panic_nil_dereference
  end.

(** [json.RawMessage] is [[]byte]. *)
Definition RawMessage : Type := list byte.

(** A value of the type [map[string]json.RawMessage]: [nil], or the entries
    of the map. The functions below receive one such map, write to it and
    hand it back; its entries are passed along. *)
Definition RawMap : Type := option (gmap string RawMessage).

(** [type GenesisState map[string]json.RawMessage] *)
Definition GenesisState : Type := RawMap.

(** [m[k] = v] *)
Definition rawmap_assign (m : RawMap) (k : string) (v : RawMessage)
    : outcome RawMap :=
  match m with
  | None => Panics panic_nil_map
  | Some entries => Returns (Some (<[k:=v]> entries))
  end.

(** [v, ok := m[k]] *)
Definition rawmap_index (m : RawMap) (k : string) : option RawMessage :=
  match m with
  | None => None
  | Some entries => entries !! k
  end.

(** [const ChainID] *)
Definition ChainID : string := "ethermint_9000-1".

(** [func BytesToHash(b []byte) Hash] of package [common]: as for an
    address, [b] is cropped from the left and copied to the right end. *)
Definition BytesToHash (b : list byte) : Hash :=
  let b := drop (length b - HashLength) b in
  array_of_list x00 HashLength (replicate (HashLength - length b) x00 ++ b).

(** ** What the helpers consume from other packages

    Types and functions of math/rand, go-ethereum, cometbft and cosmos-sdk,
    and of the packages of this repository that define keys and the genesis
    state of the EVM module. A function that returns an error returns
    [inl]. *)
Class Packages := {
  (** [*rand.Rand]: the state of the generator, and [r.Read(p)] for a [p]
      of the given length: the bytes read and the state after. *)
  rand_Rand : Type;
  Rand_Read : rand_Rand → nat → list byte * rand_Rand;
  (** The Go runtime: the largest length for which
      [make([]simtypes.Account, n)] returns on the platform. [make] panics
      for a length below zero or beyond it; it returns for the length
      zero, and the address space of no platform holds [2^62] accounts. *)
  makeslice_max_Account : Z;
  makeslice_max_Account_range : 0 ≤ makeslice_max_Account < 2 ^ 62;

  (** Keys. *)
  secp256k1_PrivKey : Type;
  ethsecp256k1_PrivKey : Type;
  ed25519_PrivKey : Type;
  cryptotypes_PubKey : Type;
  tmcrypto_PubKey : Type;
  mock_PV : Type;
  secp256k1_GenPrivKeyFromSecret : list byte → secp256k1_PrivKey;
  secp256k1_PrivKey_Bytes : secp256k1_PrivKey → list byte;
  secp256k1_PrivKey_PubKey : secp256k1_PrivKey → cryptotypes_PubKey;
  (** The key that [UnmarshalAmino(bz)] leaves in a new
      [ethsecp256k1.PrivKey]; its error is dropped by the caller. *)
  ethsecp256k1_UnmarshalAmino : list byte → ethsecp256k1_PrivKey;
  ethsecp256k1_PrivKey_PubKey : ethsecp256k1_PrivKey → cryptotypes_PubKey;
  ed25519_GenPrivKeyFromSecret : list byte → ed25519_PrivKey;
  PubKey_Address : cryptotypes_PubKey → list byte;
  tmcrypto_PubKey_Address : tmcrypto_PubKey → list byte;
  PV_GetPubKey : mock_PV → error + tmcrypto_PubKey;
  cryptocodec_FromTmPubKeyInterface :
    tmcrypto_PubKey → error + cryptotypes_PubKey;

  (** Hashes and addresses. *)
  crypto_Keccak256 : list byte → list byte;
  Hash_String : Hash → string;
  AccAddress_String : list byte → string;
  ValAddress_String : list byte → string;
  authtypes_NewModuleAddress : string → list byte;

  (** Accounts of the auth module. *)
  authtypes_BaseAccount : Type;
  authtypes_Params : Type;
  authtypes_NewBaseAccountWithAddress : list byte → authtypes_BaseAccount;
  authtypes_NewBaseAccount :
    list byte → cryptotypes_PubKey → Z → Z → authtypes_BaseAccount;
  BaseAccount_GetAddress : authtypes_BaseAccount → list byte;
  authtypes_DefaultParams : authtypes_Params;

  (** Numbers and coins of package [sdk]; an [sdk.Int] is an integer. *)
  sdk_Dec : Type;
  sdk_Coin : Type;
  sdk_OneDec : sdk_Dec;
  sdk_ZeroDec : sdk_Dec;
  sdk_NewCoin : string → Z → sdk_Coin;
  sdk_NewCoins : list sdk_Coin → list sdk_Coin;
  Coins_Add : list sdk_Coin → list sdk_Coin → list sdk_Coin;
  sdk_DefaultBondDenom : string;
  sdk_DefaultPowerReduction : Z;

  (** The staking module. *)
  codectypes_Any : Type;
  stakingtypes_Description : Type;
  stakingtypes_Commission : Type;
  stakingtypes_Delegation : Type;
  stakingtypes_ParamsRest : Type;
  time_Time : Type;
  codectypes_NewAnyWithValue : cryptotypes_PubKey → error + codectypes_Any;
  (** [stakingtypes.Description{}] *)
  Description_zero : stakingtypes_Description;
  stakingtypes_NewCommission :
    sdk_Dec → sdk_Dec → sdk_Dec → stakingtypes_Commission;
  stakingtypes_NewDelegation :
    list byte → list byte → sdk_Dec → stakingtypes_Delegation;
  (** [time.Unix(sec, nsec).UTC()] *)
  time_Unix_UTC : Z → Z → time_Time;
  stakingtypes_BondedPoolName : string;

  (** The bank module. *)
  banktypes_Params : Type;
  banktypes_Metadata : Type;
  banktypes_SendEnabled : Type;
  banktypes_DefaultParams : banktypes_Params;

  (** The EVM module. *)
  evmtypes_ParamsRest : Type;
  evmtypes_GenesisAccounts : Type;

  (** The names of the modules. *)
  authtypes_ModuleName : string;
  stakingtypes_ModuleName : string;
  banktypes_ModuleName : string;
  evmtypes_ModuleName : string;

  (** The genesis state of any other module. *)
  other_GenesisState : Type;

  (** What else the set-up of an application meets: a value of another
      type behind an [interface{}], the updates of validators, and the
      name of the key type of cometbft. *)
  other_value : Type;
  abci_ValidatorUpdate : Type;
  tmtypes_ABCIPubKeyTypeEd25519 : string;
}.

Section helpers.
Context {packages : Packages}.

(** ** The types that the helpers build *)

(** [simtypes.Account]; a key is an interface value, [nil] in the zero
    account. *)
Record simtypes_Account := {
  Account_PrivKey : option ethsecp256k1_PrivKey;
  Account_PubKey : option cryptotypes_PubKey;
  Account_Address : list byte;
  Account_ConsKey : option ed25519_PrivKey;
}.

Definition Account_zero : simtypes_Account :=
  {| Account_PrivKey := None; Account_PubKey := None;
     Account_Address := []; Account_ConsKey := None |}.

Definition set_PrivKey (k : option ethsecp256k1_PrivKey)
    (a : simtypes_Account) : simtypes_Account :=
  {| Account_PrivKey := k; Account_PubKey := Account_PubKey a;
     Account_Address := Account_Address a;
     Account_ConsKey := Account_ConsKey a |}.

Definition set_PubKey (k : option cryptotypes_PubKey)
    (a : simtypes_Account) : simtypes_Account :=
  {| Account_PrivKey := Account_PrivKey a; Account_PubKey := k;
     Account_Address := Account_Address a;
     Account_ConsKey := Account_ConsKey a |}.

Definition set_Address (addr : list byte)
    (a : simtypes_Account) : simtypes_Account :=
  {| Account_PrivKey := Account_PrivKey a; Account_PubKey := Account_PubKey a;
     Account_Address := addr; Account_ConsKey := Account_ConsKey a |}.

Definition set_ConsKey (k : option ed25519_PrivKey)
    (a : simtypes_Account) : simtypes_Account :=
  {| Account_PrivKey := Account_PrivKey a; Account_PubKey := Account_PubKey a;
     Account_Address := Account_Address a; Account_ConsKey := k |}.

(** [module.SimulationState], of which the accounts are read. *)
Record module_SimulationState := {
  SimulationState_Accounts : list simtypes_Account;
}.

(** [ethermint.EthAccount] *)
Record ethermint_EthAccount := {
  EthAccount_BaseAccount : authtypes_BaseAccount;
  EthAccount_CodeHash : string;
}.

(** [authtypes.GenesisAccount], an interface: the accounts met here are
    base accounts and accounts with a code hash. *)
Inductive authtypes_GenesisAccount : Type :=
  | GenesisAccount_base (acc : authtypes_BaseAccount)
  | GenesisAccount_eth (acc : ethermint_EthAccount).

(** [GetAddress()]; an [EthAccount] has it from the account it embeds. *)
Definition GenesisAccount_GetAddress (acc : authtypes_GenesisAccount)
    : list byte :=
  match acc with
  | GenesisAccount_base b => BaseAccount_GetAddress b
  | GenesisAccount_eth e => BaseAccount_GetAddress (EthAccount_BaseAccount e)
  end.

(** [tmtypes.Validator] and [tmtypes.ValidatorSet] *)
Record tmtypes_Validator := {
  Validator_Address : list byte;
  Validator_PubKey : tmcrypto_PubKey;
  Validator_VotingPower : Z;
  Validator_ProposerPriority : Z;
}.

Record tmtypes_ValidatorSet := {
  ValidatorSet_Validators : list tmtypes_Validator;
}.

(** [stakingtypes.BondStatus] *)
Inductive stakingtypes_BondStatus : Type :=
  | Unspecified | Unbonded | Unbonding | Bonded.

(** [stakingtypes.Validator], with the fields that the helper sets. *)
Record stakingtypes_Validator := {
  OperatorAddress : string;
  ConsensusPubkey : codectypes_Any;
  Jailed : bool;
  Status : stakingtypes_BondStatus;
  Tokens : Z;
  DelegatorShares : sdk_Dec;
  Description : stakingtypes_Description;
  UnbondingHeight : Z;
  UnbondingTime : time_Time;
  Commission : stakingtypes_Commission;
  MinSelfDelegation : Z;
}.

(** [banktypes.Balance] *)
Record banktypes_Balance := {
  Balance_Address : string;
  Balance_Coins : list sdk_Coin;
}.

(** [stakingtypes.Params] and [evmtypes.Params], each with the
    denomination that [StateFn] copies from the one to the other. *)
Record stakingtypes_Params := {
  BondDenom : string;
  stakingtypes_Params_rest : stakingtypes_ParamsRest;
}.

Record evmtypes_Params := {
  EvmDenom : string;
  evmtypes_Params_rest : evmtypes_ParamsRest;
}.

(** The genesis states of the modules, as their [NewGenesisState] fills
    them. *)
Record authtypes_GenesisState := {
  auth_Params : authtypes_Params;
  auth_Accounts : list authtypes_GenesisAccount;
}.

Record stakingtypes_GenesisState := {
  staking_Params : stakingtypes_Params;
  staking_Validators : list stakingtypes_Validator;
  staking_Delegations : list stakingtypes_Delegation;
}.

Record banktypes_GenesisState := {
  bank_Params : banktypes_Params;
  bank_Balances : list banktypes_Balance;
  bank_Supply : list sdk_Coin;
  bank_DenomMetadata : list banktypes_Metadata;
  bank_SendEnabled : list banktypes_SendEnabled;
}.

Record evmtypes_GenesisState := {
  evm_Accounts : evmtypes_GenesisAccounts;
  evm_Params : evmtypes_Params;
}.

(** A message that a codec marshals. *)
Inductive proto_Message : Type :=
  | Message_auth (g : authtypes_GenesisState)
  | Message_staking (g : stakingtypes_GenesisState)
  | Message_bank (g : banktypes_GenesisState)
  | Message_evm (g : evmtypes_GenesisState).

(** The value behind the [interface{}] that the simulation hands to the
    callback for a module. *)
Inductive module_state : Type :=
  | state_staking (g : stakingtypes_GenesisState)
  | state_other (g : other_GenesisState).
End helpers.

(** The codec and the default genesis state. *)
Class Codecs `{Packages} := {
  codec_Codec : Type;
  (** [cdc.MarshalJSON(msg)] and [cdc.UnmarshalJSON(bz, ptr)] for a new
      [evmtypes.GenesisState]; the [Must] forms panic on the error. *)
  Codec_MarshalJSON : codec_Codec → proto_Message → error + RawMessage;
  Codec_UnmarshalJSON_evm :
    codec_Codec → RawMessage → error + evmtypes_GenesisState;
  stakingtypes_DefaultParams : stakingtypes_Params;
  (** [tmtypes.NewValidatorSet] *)
  tmtypes_NewValidatorSet : list tmtypes_Validator → tmtypes_ValidatorSet;
  (** [NewDefaultGenesisState()] of this package: a new map. *)
  NewDefaultGenesisState : GenesisState;
}.

Section helper_functions.
Context `{codecs : Codecs}.

(** ** [RandomGenesisAccounts] *)

(** The loop [for i, acc := range simState.Accounts], from index [i] on. *)
Fixpoint RandomGenesisAccounts_range (emptyCodeHash : list byte) (i : nat)
    (accounts : list simtypes_Account)
    (genesisAccs : list (option authtypes_GenesisAccount))
    : outcome (list (option authtypes_GenesisAccount)) :=
  match accounts with
  | [] => mret genesisAccs
  | acc :: accounts' =>
      let bacc := authtypes_NewBaseAccountWithAddress (Account_Address acc) in
      let ethacc :=
        {| EthAccount_BaseAccount := bacc;
           EthAccount_CodeHash :=
             Hash_String (BytesToHash emptyCodeHash) |} in
      genesisAccs ←
        slice_update i (λ _, Some (GenesisAccount_eth ethacc)) genesisAccs;
      RandomGenesisAccounts_range emptyCodeHash (S i) accounts' genesisAccs
  end.

(** [func RandomGenesisAccounts(simState *module.SimulationState)
    authtypes.GenesisAccounts]. [simState] is a pointer, [None] when it is
    [nil]: [simState.Accounts] then panics. The slice that [make] returns
    holds [nil] interface values. *)
Definition RandomGenesisAccounts (simState : option module_SimulationState)
    : outcome (list (option authtypes_GenesisAccount)) :=
  let emptyCodeHash := crypto_Keccak256 [] in
  simState ← deref simState;
  let genesisAccs :=
    replicate (length (SimulationState_Accounts simState)) None in
  RandomGenesisAccounts_range emptyCodeHash 0
    (SimulationState_Accounts simState) genesisAccs.

(** ** [RandomAccounts] *)

(** The body of the loop for the index [i]. [r] is a pointer, [None] when
    it is [nil]: [r.Read] then panics. *)
Definition RandomAccounts_body (i : nat)
    (accs : list simtypes_Account) (r : option rand_Rand)
    : outcome (list simtypes_Account * option rand_Rand) :=
  r ← deref r;
  let '(privkeySeed, r) := Rand_Read r 15 in
  let prv := secp256k1_GenPrivKeyFromSecret privkeySeed in
  let ethPrv := ethsecp256k1_UnmarshalAmino (secp256k1_PrivKey_Bytes prv) in
  accs ← slice_update i (set_PrivKey (Some ethPrv)) accs;
  acc ← slice_index i accs;
  privKey ← deref (Account_PrivKey acc);
  accs ←
    slice_update i (set_PubKey (Some (ethsecp256k1_PrivKey_PubKey privKey)))
      accs;
  acc ← slice_index i accs;
  pubKey ← deref (Account_PubKey acc);
  accs ← slice_update i (set_Address (PubKey_Address pubKey)) accs;
  accs ←
    slice_update i
      (set_ConsKey (Some (ed25519_GenPrivKeyFromSecret privkeySeed))) accs;
  mret (accs, Some r).

(** The loop [for i := 0; i < n; i++] from the index [i] on, [steps] being
    the number [n - i] of indices left. *)
Fixpoint RandomAccounts_loop (steps : nat) (i : nat)
    (accs : list simtypes_Account) (r : option rand_Rand)
    : outcome (list simtypes_Account * option rand_Rand) :=
  match steps with
  | O => mret (accs, r)
  | S steps' =>
      '(accs, r) ← RandomAccounts_body i accs r;
      RandomAccounts_loop steps' (S i) accs r
  end.

(** [func RandomAccounts(r *rand.Rand, n int) []simtypes.Account]: the
    accounts, and the generator with the state in which it is left.
    [make([]simtypes.Account, n)] panics when [n] is below zero or beyond
    what the runtime allows. *)
Definition RandomAccounts (r : option rand_Rand) (n : Z)
    : outcome (list simtypes_Account * option rand_Rand) :=
  if decide (n < 0 ∨ makeslice_max_Account < n) then Panics panic_makeslice
  else
    let accs := replicate (Z.to_nat n) Account_zero in
    RandomAccounts_loop (Z.to_nat n) 0 accs r.

(** ** The callbacks of [StateFn]

    [StateFn] hands two function literals to
    [simtestutil.AppStateFnWithExtendedCbs]; they share the variable
    [bondDenom], which the first one writes and the second one reads. *)

(** [func(moduleName string, genesisState interface{})]: the value of
    [bondDenom] after the call. *)
Definition StateFn_moduleStateCb (moduleName : string)
    (genesisState : module_state) (bondDenom : string) : outcome string :=
  if decide (moduleName = stakingtypes_ModuleName) then
    match genesisState with
    | state_staking stakingState =>
        mret (BondDenom (staking_Params stakingState))
    | state_other _ => Panics panic_type_assertion
    end
  else mret bondDenom.

Definition set_EvmDenom (denom : string) (g : evmtypes_GenesisState)
    : evmtypes_GenesisState :=
  {| evm_Accounts := evm_Accounts g;
     evm_Params :=
       {| EvmDenom := denom;
          evmtypes_Params_rest := evmtypes_Params_rest (evm_Params g) |} |}.

(** [func(rawState map[string]json.RawMessage)]: the map after the call. *)
Definition StateFn_rawStateCb (cdc : codec_Codec) (bondDenom : string)
    (rawState : RawMap) : outcome RawMap :=
  match rawmap_index rawState evmtypes_ModuleName with
  | None => Panics (panic_message "evm genesis state is missing")
  | Some evmStateBz =>
      evmState ← must (Codec_UnmarshalJSON_evm cdc evmStateBz);
      let evmState := set_EvmDenom bondDenom evmState in
      bz ← must (Codec_MarshalJSON cdc (Message_evm evmState));
      rawmap_assign rawState evmtypes_ModuleName bz
  end.

(** ** [genesisStateWithValSet] *)

(** The loop [for _, val := range valSet.Validators]. *)
Fixpoint genesisStateWithValSet_range (vals : list tmtypes_Validator)
    (genAccs : list authtypes_GenesisAccount) (bondAmt : Z)
    (validators : list stakingtypes_Validator)
    (delegations : list stakingtypes_Delegation)
    : outcome (list stakingtypes_Validator * list stakingtypes_Delegation) :=
  match vals with
  | [] => mret (validators, delegations)
  | val :: vals' =>
      pk ← must (cryptocodec_FromTmPubKeyInterface (Validator_PubKey val));
      pkAny ← must (codectypes_NewAnyWithValue pk);
      let validator :=
        {| OperatorAddress := ValAddress_String (Validator_Address val);
           ConsensusPubkey := pkAny;
           Jailed := false;
           Status := Bonded;
           Tokens := bondAmt;
           DelegatorShares := sdk_OneDec;
           Description := Description_zero;
           UnbondingHeight := 0;
           UnbondingTime := time_Unix_UTC 0 0;
           Commission :=
             stakingtypes_NewCommission sdk_ZeroDec sdk_ZeroDec sdk_ZeroDec;
           MinSelfDelegation := 0 |} in
      let validators := validators ++ [validator] in
      genAcc ← slice_index 0 genAccs;
      let delegations :=
        delegations ++
        [stakingtypes_NewDelegation (GenesisAccount_GetAddress genAcc)
           (Validator_Address val) sdk_OneDec] in
      genesisStateWithValSet_range vals' genAccs bondAmt validators
        delegations
  end.

(** The coin that stands for the tokens of one validator. *)
Definition bond_coin : sdk_Coin :=
  sdk_NewCoin sdk_DefaultBondDenom sdk_DefaultPowerReduction.

(** [func genesisStateWithValSet(codec, genesisState, valSet, genAccs,
    balances...) GenesisState] *)
Definition genesisStateWithValSet (codec : codec_Codec)
    (genesisState : GenesisState) (valSet : tmtypes_ValidatorSet)
    (genAccs : list authtypes_GenesisAccount)
    (balances : list banktypes_Balance) : outcome GenesisState :=
  let authGenesis :=
    {| auth_Params := authtypes_DefaultParams; auth_Accounts := genAccs |} in
  bz ← must (Codec_MarshalJSON codec (Message_auth authGenesis));
  genesisState ← rawmap_assign genesisState authtypes_ModuleName bz;
  let bondAmt := sdk_DefaultPowerReduction in
  '(validators, delegations) ←
    genesisStateWithValSet_range (ValidatorSet_Validators valSet) genAccs
      bondAmt [] [];
  let stakingGenesis :=
    {| staking_Params := stakingtypes_DefaultParams;
       staking_Validators := validators;
       staking_Delegations := delegations |} in
  bz ← must (Codec_MarshalJSON codec (Message_staking stakingGenesis));
  genesisState ← rawmap_assign genesisState stakingtypes_ModuleName bz;
  let totalSupply := sdk_NewCoins [] in
  let totalSupply :=
    foldl (λ totalSupply b, Coins_Add totalSupply (Balance_Coins b))
      totalSupply balances in
  let totalSupply :=
    foldl (λ totalSupply _,
             Coins_Add totalSupply [sdk_NewCoin sdk_DefaultBondDenom bondAmt])
      totalSupply delegations in
  let balances :=
    balances ++
    [{| Balance_Address :=
          AccAddress_String
            (authtypes_NewModuleAddress stakingtypes_BondedPoolName);
        Balance_Coins := [sdk_NewCoin sdk_DefaultBondDenom bondAmt] |}] in
  let bankGenesis :=
    {| bank_Params := banktypes_DefaultParams;
       bank_Balances := balances;
       bank_Supply := totalSupply;
       bank_DenomMetadata := [];
       bank_SendEnabled := [] |} in
  bz ← must (Codec_MarshalJSON codec (Message_bank bankGenesis));
  genesisState ← rawmap_assign genesisState banktypes_ModuleName bz;
  mret genesisState.

(** ** [NewTestGenesisState] *)

(** [func NewTestGenesisState(codec) GenesisState]. The validator key of
    [mock.NewPV()] and the key of [secp256k1.GenPrivKey()] are drawn at
    random: they are arguments. *)
Definition NewTestGenesisState (privVal : mock_PV)
    (senderPrivKey : secp256k1_PrivKey) (codec : codec_Codec)
    : outcome GenesisState :=
  pubKey ← must (PV_GetPubKey privVal);
  let validator :=
    {| Validator_Address := tmcrypto_PubKey_Address pubKey;
       Validator_PubKey := pubKey;
       Validator_VotingPower := 1;
       Validator_ProposerPriority := 0 |} in
  let valSet := tmtypes_NewValidatorSet [validator] in
  let acc :=
    authtypes_NewBaseAccount
      (PubKey_Address (secp256k1_PrivKey_PubKey senderPrivKey))
      (secp256k1_PrivKey_PubKey senderPrivKey) 0 0 in
  let balance :=
    {| Balance_Address := AccAddress_String (BaseAccount_GetAddress acc);
       Balance_Coins :=
         sdk_NewCoins [sdk_NewCoin sdk_DefaultBondDenom 100000000000000] |} in
  let genesisState := NewDefaultGenesisState in
  genesisStateWithValSet codec genesisState valSet
    [GenesisAccount_base acc] [balance].

(** ** The vocabulary of the properties of the helpers *)

(** The account that the loop of [RandomAccounts] makes of a seed. *)
Definition account_of_seed (privkeySeed : list byte) : simtypes_Account :=
  let ethPrv :=
    ethsecp256k1_UnmarshalAmino
      (secp256k1_PrivKey_Bytes
         (secp256k1_GenPrivKeyFromSecret privkeySeed)) in
  let pubKey := ethsecp256k1_PrivKey_PubKey ethPrv in
  {| Account_PrivKey := Some ethPrv;
     Account_PubKey := Some pubKey;
     Account_Address := PubKey_Address pubKey;
     Account_ConsKey := Some (ed25519_GenPrivKeyFromSecret privkeySeed) |}.

(** The seeds of [k] reads of fifteen bytes, and the state after them. *)
Fixpoint read_seeds (k : nat) (r : rand_Rand)
    : list (list byte) * rand_Rand :=
  match k with
  | O => ([], r)
  | S k' =>
      let '(seed, r) := Rand_Read r 15 in
      let '(seeds, r) := read_seeds k' r in
      (seed :: seeds, r)
  end.

(** [var bondDenom string]: the variable is empty when [StateFn] hands
    the callbacks over. *)
Definition StateFn_bondDenom : string := "".

(** The callback for the modules, called for each module of [calls] in
    turn. *)
Fixpoint StateFn_moduleStateCb_calls (calls : list (string * module_state))
    (bondDenom : string) : outcome string :=
  match calls with
  | [] => mret bondDenom
  | (moduleName, genesisState) :: calls' =>
      bondDenom ← StateFn_moduleStateCb moduleName genesisState bondDenom;
      StateFn_moduleStateCb_calls calls' bondDenom
  end.

(** The bond denominations of the staking states among [calls]. *)
Definition bond_denoms (calls : list (string * module_state))
    : list string :=
  omap (λ call,
          if decide (call.1 = stakingtypes_ModuleName) then
            match call.2 with
            | state_staking g => Some (BondDenom (staking_Params g))
            | state_other _ => None
            end
          else None) calls.

(** The staking validator that [genesisStateWithValSet] makes of a
    validator of the set. *)
Definition bonded_validator (val : tmtypes_Validator)
    (v : stakingtypes_Validator) : Prop :=
  OperatorAddress v = ValAddress_String (Validator_Address val) ∧
  (∃ pk,
     cryptocodec_FromTmPubKeyInterface (Validator_PubKey val) = inr pk ∧
     codectypes_NewAnyWithValue pk = inr (ConsensusPubkey v)) ∧
  Jailed v = false ∧
  Status v = Bonded ∧
  Tokens v = sdk_DefaultPowerReduction ∧
  DelegatorShares v = sdk_OneDec ∧
  MinSelfDelegation v = 0.

(** The balance of the bonded pool. *)
Definition bonded_pool_balance : banktypes_Balance :=
  {| Balance_Address :=
       AccAddress_String
         (authtypes_NewModuleAddress stakingtypes_BondedPoolName);
     Balance_Coins := [bond_coin] |}.

(** The coins of a list of balances, added up from the first on. *)
Definition balances_total (balances : list banktypes_Balance)
    : list sdk_Coin :=
  foldl (λ total b, Coins_Add total (Balance_Coins b)) (sdk_NewCoins [])
    balances.
End helper_functions.

(** ** The set-up of an application *)

Section consensus.
Context {packages : Packages}.

(** A value behind an [interface{}]: an [int], a [string] or another. *)
Inductive interface_value : Type :=
  | value_int (n : Z)
  | value_string (s : string)
  | value_other (v : other_value).

(** [tmproto.ConsensusParams] and its parts; a [time.Duration] is a number
    of nanoseconds. *)
Record tmproto_BlockParams := {
  BlockParams_MaxBytes : Z;
  BlockParams_MaxGas : Z;
}.

Record tmproto_EvidenceParams := {
  EvidenceParams_MaxAgeNumBlocks : Z;
  EvidenceParams_MaxAgeDuration : Z;
  EvidenceParams_MaxBytes : Z;
}.

Record tmproto_ValidatorParams := {
  ValidatorParams_PubKeyTypes : list string;
}.

Record tmproto_ConsensusParams := {
  ConsensusParams_Block : tmproto_BlockParams;
  ConsensusParams_Evidence : tmproto_EvidenceParams;
  ConsensusParams_Validator : tmproto_ValidatorParams;
}.

(** [time.Hour] *)
Definition time_Hour : Z := 60 * 60 * 1000000000.

(** [var DefaultConsensusParams] *)
Definition DefaultConsensusParams : tmproto_ConsensusParams :=
  {| ConsensusParams_Block :=
       {| BlockParams_MaxBytes := 1048576;
          BlockParams_MaxGas := 81500000 |};
     ConsensusParams_Evidence :=
       {| EvidenceParams_MaxAgeNumBlocks := 302400;
          EvidenceParams_MaxAgeDuration := 504 * time_Hour;
          EvidenceParams_MaxBytes := 10000 |};
     ConsensusParams_Validator :=
       {| ValidatorParams_PubKeyTypes := [tmtypes_ABCIPubKeyTypeEd25519] |}
  |}.

(** [abci.RequestInitChain], with the fields that the set-up fills. *)
Record abci_RequestInitChain := {
  RequestInitChain_ChainId : string;
  RequestInitChain_Validators : list abci_ValidatorUpdate;
  RequestInitChain_ConsensusParams : tmproto_ConsensusParams;
  RequestInitChain_AppStateBytes : list byte;
}.
End consensus.

(** A value of the type [simtestutil.AppOptionsMap], a
    [map[string]interface{}]: [nil], or the entries of the map. *)
Abbreviation AppOptionsMap := (option (gmap string interface_value)).

(** The application, of which the constructor and the methods below are
    consumed, the in-memory database, and the names of two options. *)
Class Application `{Codecs} := {
  dbm_DB : Type;
  (** [dbm.NewMemDB()] *)
  dbm_NewMemDB : dbm_DB;
  EthermintApp : Type;
  (** [NewEthermintApp(log.NewNopLogger(), db, nil, loadLatest, appOptions,
      baseapp.SetChainID(chainID))], given the entries of the options. *)
  NewEthermintApp :
    dbm_DB → bool → gmap string interface_value → string → EthermintApp;
  EthermintApp_AppCodec : EthermintApp → codec_Codec;
  (** The application after [app.InitChain(req)]. *)
  EthermintApp_InitChain :
    EthermintApp → abci_RequestInitChain → EthermintApp;
  (** [json.MarshalIndent(v, prefix, indent)] *)
  json_MarshalIndent : GenesisState → string → string → error + list byte;
  server_FlagInvCheckPeriod : string;
  flags_FlagHome : string;
  DefaultNodeHome : string;
}.

Section setup.
Context `{application : Application}.

(** [func SetupWithDBAndOpts(isCheckTx, patch, db, appOptions)
    *EthermintApp]: the application, and the entries of the map of options
    that it was made with, which is the map of the caller unless that one
    is [nil]. The keys that [NewTestGenesisState] draws are arguments. *)
Definition SetupWithDBAndOpts (privVal : mock_PV)
    (senderPrivKey : secp256k1_PrivKey) (isCheckTx : bool)
    (patch : option (EthermintApp → GenesisState → GenesisState))
    (db : dbm_DB) (appOptions : AppOptionsMap)
    : outcome (EthermintApp * gmap string interface_value) :=
  let appOptions :=
    match appOptions with
    | None => ∅
    | Some entries => entries
    end in
  let appOptions := <[server_FlagInvCheckPeriod:=value_int 5]> appOptions in
  let appOptions :=
    <[flags_FlagHome:=value_string DefaultNodeHome]> appOptions in
  let app := NewEthermintApp db true appOptions ChainID in
  if negb isCheckTx then
    genesisState ←
      NewTestGenesisState privVal senderPrivKey (EthermintApp_AppCodec app);
    let genesisState :=
      match patch with
      | Some patch => patch app genesisState
      | None => genesisState
      end in
    stateBytes ← must (json_MarshalIndent genesisState "" " ");
    let app :=
      EthermintApp_InitChain app
        {| RequestInitChain_ChainId := ChainID;
           RequestInitChain_Validators := [];
           RequestInitChain_ConsensusParams := DefaultConsensusParams;
           RequestInitChain_AppStateBytes := stateBytes |} in
    mret (app, appOptions)
  else mret (app, appOptions).

(** [func SetupWithDB(isCheckTx, patch, db) *EthermintApp] *)
Definition SetupWithDB (privVal : mock_PV)
    (senderPrivKey : secp256k1_PrivKey) (isCheckTx : bool)
    (patch : option (EthermintApp → GenesisState → GenesisState))
    (db : dbm_DB) : outcome (EthermintApp * gmap string interface_value) :=
  SetupWithDBAndOpts privVal senderPrivKey isCheckTx patch db None.

(** [func Setup(isCheckTx, patch) *EthermintApp] *)
Definition Setup (privVal : mock_PV) (senderPrivKey : secp256k1_PrivKey)
    (isCheckTx : bool)
    (patch : option (EthermintApp → GenesisState → GenesisState))
    : outcome (EthermintApp * gmap string interface_value) :=
  SetupWithDB privVal senderPrivKey isCheckTx patch dbm_NewMemDB.

(** [func SetupWithOpts(isCheckTx, patch, appOptions) *EthermintApp] *)
Definition SetupWithOpts (privVal : mock_PV)
    (senderPrivKey : secp256k1_PrivKey) (isCheckTx : bool)
    (patch : option (EthermintApp → GenesisState → GenesisState))
    (appOptions : AppOptionsMap)
    : outcome (EthermintApp * gmap string interface_value) :=
  SetupWithDBAndOpts privVal senderPrivKey isCheckTx patch dbm_NewMemDB
    appOptions.
End setup.

(** ** Concrete packages for the scenarios of the helpers

    Keys, addresses and encodings are byte strings, a coin is a
    denomination and an amount, and adding coins appends them; the
    generator is a counter that fills a read with its value. *)
Module HelperScenario.

Definition byte_of_nat (n : nat) : byte :=
  default x00 (Byte.of_nat (n mod 256)).

#[export] Instance packages : Packages := {|
  rand_Rand := nat;
  Rand_Read := λ r k, (replicate k (byte_of_nat r), S r);
  (* 2^48 bytes of address space, 72 bytes for an account *)
  makeslice_max_Account := 3909374676536;
  makeslice_max_Account_range := ltac:(split; [discriminate|reflexivity]);
  secp256k1_PrivKey := list byte;
  ethsecp256k1_PrivKey := list byte;
  ed25519_PrivKey := list byte;
  cryptotypes_PubKey := list byte;
  tmcrypto_PubKey := list byte;
  mock_PV := option (list byte);
  secp256k1_GenPrivKeyFromSecret := λ secret, secret;
  secp256k1_PrivKey_Bytes := λ k, k;
  secp256k1_PrivKey_PubKey := λ k, x01 :: k;
  ethsecp256k1_UnmarshalAmino := λ bz, bz;
  ethsecp256k1_PrivKey_PubKey := λ k, x02 :: k;
  ed25519_GenPrivKeyFromSecret := λ secret, x03 :: secret;
  PubKey_Address := take 20;
  tmcrypto_PubKey_Address := take 20;
  PV_GetPubKey := λ pv,
    match pv with Some k => inr k | None => inl "no key" end;
  cryptocodec_FromTmPubKeyInterface := λ k,
    match k with [] => inl "empty key" | _ => inr k end;
  crypto_Keccak256 := λ _, replicate 32 xc5;
  Hash_String := λ h, String.string_of_list_byte (vec_to_list h);
  AccAddress_String := String.string_of_list_byte;
  ValAddress_String := String.string_of_list_byte;
  authtypes_NewModuleAddress := String.list_byte_of_string;
  authtypes_BaseAccount := list byte;
  authtypes_Params := unit;
  authtypes_NewBaseAccountWithAddress := λ addr, addr;
  authtypes_NewBaseAccount := λ addr _ _ _, addr;
  BaseAccount_GetAddress := λ acc, acc;
  authtypes_DefaultParams := ();
  sdk_Dec := Z;
  sdk_Coin := string * Z;
  sdk_OneDec := 1;
  sdk_ZeroDec := 0;
  sdk_NewCoin := pair;
  sdk_NewCoins := λ coins, coins;
  Coins_Add := app;
  sdk_DefaultBondDenom := "stake";
  sdk_DefaultPowerReduction := 1000000;
  codectypes_Any := list byte;
  stakingtypes_Description := unit;
  stakingtypes_Commission := unit;
  stakingtypes_Delegation := list byte * list byte * Z;
  stakingtypes_ParamsRest := unit;
  time_Time := Z * Z;
  codectypes_NewAnyWithValue := inr;
  Description_zero := ();
  stakingtypes_NewCommission := λ _ _ _, ();
  stakingtypes_NewDelegation := λ del val shares, (del, val, shares);
  time_Unix_UTC := pair;
  stakingtypes_BondedPoolName := "bonded_tokens_pool";
  banktypes_Params := unit;
  banktypes_Metadata := unit;
  banktypes_SendEnabled := unit;
  banktypes_DefaultParams := ();
  evmtypes_ParamsRest := unit;
  evmtypes_GenesisAccounts := unit;
  authtypes_ModuleName := "auth";
  stakingtypes_ModuleName := "staking";
  banktypes_ModuleName := "bank";
  evmtypes_ModuleName := "evm";
  other_GenesisState := unit;
  other_value := unit;
  abci_ValidatorUpdate := unit;
  tmtypes_ABCIPubKeyTypeEd25519 := "ed25519";
|}.

(** The codec writes a tag for a genesis state, and the denomination for
    the one of the EVM module. *)
#[export] Instance codecs : Codecs := {|
  codec_Codec := unit;
  Codec_MarshalJSON := λ _ msg,
    match msg with
    | Message_auth _ => inr [x01]
    | Message_staking _ => inr [x02]
    | Message_bank _ => inr [x03]
    | Message_evm g =>
        inr (String.list_byte_of_string (EvmDenom (evm_Params g)))
    end;
  Codec_UnmarshalJSON_evm := λ _ bz,
    inr {| evm_Accounts := ();
           evm_Params := {| EvmDenom := String.string_of_list_byte bz;
                            evmtypes_Params_rest := () |} |};
  stakingtypes_DefaultParams :=
    {| BondDenom := "stake"; stakingtypes_Params_rest := () |};
  tmtypes_NewValidatorSet := λ vals, {| ValidatorSet_Validators := vals |};
  NewDefaultGenesisState :=
    Some {[ "evm" := String.list_byte_of_string "aphoton" ]};
|}.

(** An application is the options it was made with and the requests it
    has seen. *)
#[export] Instance application : Application := {|
  dbm_DB := unit;
  dbm_NewMemDB := ();
  EthermintApp :=
    gmap string interface_value * list abci_RequestInitChain;
  NewEthermintApp := λ _ _ appOptions _, (appOptions, []);
  EthermintApp_AppCodec := λ _, ();
  EthermintApp_InitChain := λ app req, (app.1, app.2 ++ [req]);
  json_MarshalIndent := λ genesisState _ _,
    match genesisState with
    | Some m => inr (concat (map_to_list m).*2)
    | None => inr []
    end;
  server_FlagInvCheckPeriod := "inv-check-period";
  flags_FlagHome := "home";
  DefaultNodeHome := "/home/.ethermintd";
|}.

(** The options of a caller: a home and a pruning strategy. *)
Definition caller_options : AppOptionsMap :=
  Some {[ "home" := value_string "/tmp";
          "pruning" := value_string "nothing" ]}.

Definition test_codec : @codec_Codec packages codecs := ().

(** A validator key and a sender key. *)
Definition test_privVal : @mock_PV packages := Some [x0b].
Definition test_senderPrivKey : @secp256k1_PrivKey packages := [x0c].
Definition test_pubKey : @tmcrypto_PubKey packages := [x0b].

(** A staking state whose bond denomination is [atom]. *)
Definition staking_atom : stakingtypes_GenesisState :=
  {| staking_Params :=
       {| BondDenom := "atom"; stakingtypes_Params_rest := () |};
     staking_Validators := [];
     staking_Delegations := [] |}.

(** The calls of the callback for the bank module and then for the
    staking module. *)
Definition calls_bank_staking : list (string * module_state) :=
  [("bank", @state_other packages ());
   ("staking", state_staking staking_atom)].

(** A raw state with the EVM module and another one. *)
Definition raw_state : RawMap :=
  Some {[ "evm" := String.list_byte_of_string "aphoton"; "gov" := [x07] ]}.

(** A validator set of one validator, a genesis account and a balance. *)
Definition one_validator : tmtypes_ValidatorSet :=
  {| ValidatorSet_Validators :=
       [{| Validator_Address := [x0a]; Validator_PubKey := [x0b];
           Validator_VotingPower := 1; Validator_ProposerPriority := 0 |}] |}.

Definition sender : authtypes_GenesisAccount := GenesisAccount_base [x0c].

Definition sender_balance : banktypes_Balance :=
  {| Balance_Address := "sender"; Balance_Coins := [("stake", 500)] |}.

(** A genesis state with the entry of another module. *)
Definition genesis_gov : GenesisState := Some {[ "gov" := [x07] ]}.

End HelperScenario.

(** * Properties *)

(** ** The order of addresses *)

Lemma byte_to_N_inj x y : Byte.to_N x = Byte.to_N y → x = y.
Proof.
  intros Hxy. apply (inj Some). rewrite <-!Byte.of_to_N. by rewrite Hxy.
Qed.

Lemma bytes_Compare_flip a b : bytes_Compare b a = - bytes_Compare a b.
Proof.
  revert b. induction a as [|x a IH]; intros [|y b]; simpl; try done.
  destruct (N.ltb_spec (Byte.to_N x) (Byte.to_N y)),
    (N.ltb_spec (Byte.to_N y) (Byte.to_N x)); try lia.
  apply IH.
Qed.

Lemma bytes_Compare_eq a b : bytes_Compare a b = 0 ↔ a = b.
Proof.
  revert b. induction a as [|x a IH]; intros [|y b]; simpl; try done.
  destruct (N.ltb_spec (Byte.to_N x) (Byte.to_N y)) as [Hlt|Hge].
  { split; [lia|]. intros [= -> _]. lia. }
  destruct (N.ltb_spec (Byte.to_N y) (Byte.to_N x)) as [Hlt|Hle].
  { split; [lia|]. intros [= -> _]. lia. }
  rewrite IH. assert (x = y) as -> by (apply byte_to_N_inj; lia).
  split; [by intros ->|by intros [= ->]].
Qed.

Lemma bytes_Compare_le_trans a b c :
  bytes_Compare a b ≤ 0 → bytes_Compare b c ≤ 0 → bytes_Compare a c ≤ 0.
Proof.
  revert b c.
  induction a as [|x a IH]; intros [|y b] [|z c]; simpl; try lia.
  destruct (N.ltb_spec (Byte.to_N x) (Byte.to_N y)),
    (N.ltb_spec (Byte.to_N y) (Byte.to_N x)),
    (N.ltb_spec (Byte.to_N y) (Byte.to_N z)),
    (N.ltb_spec (Byte.to_N z) (Byte.to_N y)),
    (N.ltb_spec (Byte.to_N x) (Byte.to_N z)),
    (N.ltb_spec (Byte.to_N z) (Byte.to_N x)); try lia.
  apply IH.
Qed.

#[global] Instance address_le_trans : Transitive address_le.
Proof. intros a b c. apply bytes_Compare_le_trans. Qed.

#[global] Instance address_le_antisymm : AntiSymm (=) address_le.
Proof.
  intros a b Hab Hba. unfold address_le in *.
  rewrite bytes_Compare_flip in Hba.
  apply (inj Bytes), bytes_Compare_eq. lia.
Qed.

#[global] Instance address_le_total : Total address_le.
Proof.
  intros a b. unfold address_le.
  rewrite (bytes_Compare_flip (Bytes a) (Bytes b)). lia.
Qed.

Lemma address_lt_le_ne a b : address_lt a b ↔ address_le a b ∧ a ≠ b.
Proof.
  unfold address_lt, address_le. split.
  - intros Hlt. split; [lia|]. intros ->.
    assert (bytes_Compare (Bytes b) (Bytes b) = 0)
      by by apply bytes_Compare_eq.
    lia.
  - intros [Hle Hne].
    assert (bytes_Compare (Bytes a) (Bytes b) ≠ 0); [|lia].
    intros Heq%bytes_Compare_eq. by apply Hne, (inj Bytes).
Qed.

#[global] Instance address_lt_trans : Transitive address_lt.
Proof.
  intros a b c [Hab Hne]%address_lt_le_ne [Hbc _]%address_lt_le_ne.
  apply address_lt_le_ne. split; [by trans b|].
  intros ->. apply Hne. by apply (anti_symm address_le).
Qed.

Lemma less_false a b : less b a = false ↔ address_le a b.
Proof.
  unfold less, address_le. rewrite bool_decide_eq_false.
  rewrite (bytes_Compare_flip (Bytes a) (Bytes b)). lia.
Qed.

Lemma less_true a b : less a b = true ↔ address_lt a b.
Proof. unfold less, address_lt. by rewrite bool_decide_eq_true. Qed.

(** ** The stable sort *)

Section sort_facts.
Context {A : Type} (less : A → A → bool) (R : relation A).
Context (Hless : ∀ x y, less y x = false ↔ R x y) `{!Total R}.

Lemma insert_sorted_Permutation x l : insert_sorted less x l ≡ₚ x :: l.
Proof.
  induction l as [|y l IH]; simpl; [done|].
  destruct (less y x); [|done]. rewrite IH. apply Permutation_swap.
Qed.

Lemma sort_SliceStable_Permutation l : sort_SliceStable less l ≡ₚ l.
Proof.
  induction l as [|x l IH]; simpl; [done|].
  by rewrite insert_sorted_Permutation, IH.
Qed.

Lemma insert_sorted_HdRel x y l :
  R y x → HdRel R y l → HdRel R y (insert_sorted less x l).
Proof.
  intros Hyx Hyl. destruct l as [|z l]; simpl; [by constructor|].
  destruct (less z x); constructor; [|done]. by inv Hyl.
Qed.

Lemma insert_sorted_Sorted x l :
  Sorted R l → Sorted R (insert_sorted less x l).
Proof.
  induction 1 as [|y l Hl IH Hy]; simpl; [by repeat constructor|].
  destruct (less y x) eqn:Hyx.
  - constructor; [done|]. apply insert_sorted_HdRel; [|done].
    destruct (total R y x) as [|Hxy]; [done|].
    apply Hless in Hxy. congruence.
  - apply Hless in Hyx. by repeat constructor.
Qed.

Lemma sort_SliceStable_Sorted l : Sorted R (sort_SliceStable less l).
Proof.
  induction l as [|x l IH]; simpl; [constructor|].
  by apply insert_sorted_Sorted.
Qed.
End sort_facts.

(** ** Running the constructor *)

Section construction.
Context {geth : GoEthereum}.

Lemma range_order_NoDup (rng : MapRange) (E : PrecompiledContracts) :
  NoDup (rng E).*1.
Proof. rewrite (range_order_perm rng E). apply NoDup_fst_map_to_list. Qed.

Lemma range_order_list_to_map (rng : MapRange) (E : PrecompiledContracts) :
  list_to_map (rng E) = E.
Proof.
  rewrite <-(list_to_map_to_list E) at 2.
  apply list_to_map_proper; [apply range_order_NoDup|].
  apply range_order_perm.
Qed.

Lemma range_order_empty (rng : MapRange) : rng ∅ = [].
Proof.
  apply Permutation_nil_r. rewrite (range_order_perm rng ∅).
  by rewrite map_to_list_empty.
Qed.

Lemma reported_Permutation (rng : MapRange) (E : PrecompiledContracts) :
  reported (rng E) ≡ₚ reported (map_to_list E).
Proof. unfold reported. by rewrite (range_order_perm rng E). Qed.

(** The assignments of the loop amount to a left-biased union. *)
Lemma foldl_assign_entry kvs (D : PrecompiledContracts) :
  NoDup kvs.*1 → foldl assign_entry D kvs = list_to_map kvs ∪ D.
Proof.
  revert D. induction kvs as [|[k v] kvs IH]; intros D Hnodup.
  { simpl. by rewrite (left_id_L ∅ (∪)). }
  rewrite fmap_cons in Hnodup. apply NoDup_cons in Hnodup as [Hk Hnodup].
  simpl. rewrite IH by done. unfold assign_entry. simpl.
  rewrite <-insert_union_l. symmetry. apply insert_union_r.
  by apply not_elem_of_list_to_map_1.
Qed.

Lemma range_customPrecompiles_run kvs l (m : PrecompiledContracts)
    active (σ : Store) :
  σ !! l = Some m →
  range_customPrecompiles kvs (Some l) active σ =
    Some (active ++ reported kvs, <[l:=foldl assign_entry m kvs]> σ).
Proof.
  revert m active σ.
  induction kvs as [|[k v] kvs IH]; intros m active σ Hl.
  { cbn [range_customPrecompiles foldl]. unfold reported.
    rewrite fmap_nil, (right_id_L [] (++)), insert_id by done. done. }
  cbn [range_customPrecompiles foldl]. unfold reported.
  rewrite fmap_cons. fold (reported kvs).
  unfold mbind at 1. unfold Go_bind at 1. unfold map_assign.
  rewrite Hl. cbn [option_bind mbind option_ret].
  rewrite (IH (<[k:=v]> m)) by apply lookup_insert_eq.
  by rewrite insert_insert_eq, <-(assoc_L (++)).
Qed.

Section run.
Context (rng : MapRange) (ctx : sdk_Context)
  (blockCtx : vm_BlockContext) (txCtx : vm_TxContext)
  (stateDB : vm_StateDB) (chainConfig : params_ChainConfig)
  (config : vm_Config)
  (getPrecompilesExtended : sdk_Context → vm_EVM → mapref)
  (σ : Store) (E : PrecompiledContracts).

(** The extension mapping is a map of the store before the
    construction, or [nil]. *)
Context (HE :
  entries σ (getPrecompilesExtended ctx
    (vm_NewEVM blockCtx txCtx stateDB chainConfig config)) = Some E).

(** The constructor does not panic; the table is a new map object that
    holds the union of the extension mapping and of the built-in
    entries, the former taking precedence. *)
Lemma NewEVM_run :
  NewEVM rng ctx blockCtx txCtx stateDB chainConfig config
    getPrecompilesExtended σ =
  Some
    ({| EVM_embedded :=
          vm_NewEVM blockCtx txCtx stateDB chainConfig config;
        precompiles := Some (fresh (dom σ));
        activePrecompiles :=
          sort_SliceStable less
            (DefaultActivePrecompiles (chain_rules chainConfig blockCtx)
             ++ reported (rng E)) |},
     <[fresh (dom σ):=
         E ∪ DefaultPrecompiles (chain_rules chainConfig blockCtx)]> σ).
Proof.
  unfold NewEVM, vm_DefaultPrecompiles, map_make.
  fold (chain_rules chainConfig blockCtx).
  set (rules := chain_rules chainConfig blockCtx).
  set (base := vm_NewEVM blockCtx txCtx stateDB chainConfig config) in *.
  set (p := fresh (dom σ)).
  assert (σ !! p = None) as Hp.
  { apply not_elem_of_dom, is_fresh. }
  assert (map_range rng (getPrecompilesExtended ctx base)
            (<[p:=DefaultPrecompiles rules]> σ) =
          Some (rng E, <[p:=DefaultPrecompiles rules]> σ)) as Hrange.
  { unfold map_range. destruct (getPrecompilesExtended ctx base) as [l|].
    - simpl in HE. rewrite lookup_insert_ne by congruence.
      by rewrite HE.
    - simpl in HE. injection HE as <-. by rewrite range_order_empty. }
  unfold mbind at 1. unfold Go_bind at 1. cbv zeta. fold p.
  unfold mbind at 1. unfold Go_bind at 1. rewrite Hrange.
  unfold mbind at 1. unfold Go_bind at 1.
  rewrite (range_customPrecompiles_run _ _ (DefaultPrecompiles rules))
    by apply lookup_insert_eq.
  unfold mret, Go_ret. rewrite insert_insert_eq.
  rewrite foldl_assign_entry by apply range_order_NoDup.
  by rewrite range_order_list_to_map.
Qed.
End run.

(** The lookup of a wrapper whose table is the map object [T]. *)
Lemma Precompile_run (e : EVM) (σ : Store) (T : PrecompiledContracts) addr :
  entries σ (precompiles e) = Some T →
  Precompile e addr σ =
    Some (match T !! addr with
          | Some c => (Some c, true)
          | None => (None, false)
          end, σ).
Proof.
  unfold Precompile, map_index, entries.
  destruct (precompiles e) as [l|]; simpl.
  - by intros ->.
  - intros [= <-]. by rewrite lookup_empty.
Qed.
End construction.

(** ** The sorted list of addresses *)

Lemma active_Sorted l : Sorted address_le (sort_SliceStable less l).
Proof. apply sort_SliceStable_Sorted; [apply less_false|apply _]. Qed.

Lemma active_Permutation l : sort_SliceStable less l ≡ₚ l.
Proof. apply sort_SliceStable_Permutation. Qed.

(** The sorted list depends on the elements only, not on their order. *)
Lemma active_order_irrelevant l1 l2 :
  l1 ≡ₚ l2 → sort_SliceStable less l1 = sort_SliceStable less l2.
Proof.
  intros Hperm. apply (Sorted_unique address_le); [apply active_Sorted..|].
  by rewrite !active_Permutation.
Qed.

(** Any sort puts the list in the same order as the stable one: equal
    addresses cannot be told apart. *)
Lemma sort_SliceStable_unique l l' :
  l' ≡ₚ l → Sorted address_le l' → l' = sort_SliceStable less l.
Proof.
  intros Hperm Hsorted.
  apply (Sorted_unique address_le); [done|apply active_Sorted|].
  by rewrite active_Permutation.
Qed.

Lemma Sorted_address_lt_NoDup l : Sorted address_lt l → NoDup l.
Proof.
  intros Hl%Sorted_StronglySorted; [|apply _].
  induction Hl as [|a l _ IH Ha]; constructor; [|done].
  intros Hin. rewrite Forall_forall in Ha.
  apply Ha, address_lt_le_ne in Hin as [_ Hne]. done.
Qed.

Lemma Sorted_address_le_lt l :
  Sorted address_le l → NoDup l → Sorted address_lt l.
Proof.
  intros Hl%Sorted_StronglySorted Hnodup; [|apply _].
  apply StronglySorted_Sorted.
  induction Hl as [|a l _ IH Ha]; [constructor|].
  apply NoDup_cons in Hnodup as [Ha' Hnodup].
  constructor; [by apply IH|].
  rewrite Forall_forall in *. intros b Hb.
  apply address_lt_le_ne. split; [by apply Ha|]. by intros ->.
Qed.

(** ** The claims *)

Section claims.
Context {geth : GoEthereum}.
Context (rng : MapRange) (ctx : sdk_Context)
  (blockCtx : vm_BlockContext) (txCtx : vm_TxContext)
  (stateDB : vm_StateDB) (chainConfig : params_ChainConfig)
  (config : vm_Config)
  (getPrecompilesExtended : sdk_Context → vm_EVM → mapref)
  (σ : Store) (E : PrecompiledContracts).

(** The extension mapping [E] is the map that the callback hands back: a
    map object of the store in which the wrapper is constructed, or
    [nil] and then [E] is empty. *)
Context (HE :
  entries σ (getPrecompilesExtended ctx
    (vm_NewEVM blockCtx txCtx stateDB chainConfig config)) = Some E).

(** C1, amended. The Active Address List produced by [NewEVM] is sorted
    by unsigned byte-wise address order, not always strictly: it is a
    rearrangement of the built-in active list followed by the addresses
    that the extension contracts report, so that an address occurs in it
    as often as in these two together. It is strictly sorted, and free of
    duplicates, exactly when these addresses are pairwise distinct. *)
Theorem NewEVM_active_list_sorted :
  ∃ e σ',
    NewEVM rng ctx blockCtx txCtx stateDB chainConfig config
      getPrecompilesExtended σ = Some (e, σ') ∧
    let merged :=
      DefaultActivePrecompiles (chain_rules chainConfig blockCtx)
      ++ reported (map_to_list E) in
    Sorted address_le (activePrecompiles e) ∧
    activePrecompiles e ≡ₚ merged ∧
    (∀ a, count_occ Address_eq_dec (activePrecompiles e) a =
          (count_occ Address_eq_dec
             (DefaultActivePrecompiles (chain_rules chainConfig blockCtx))
             a
           + count_occ Address_eq_dec (reported (map_to_list E)) a)%nat) ∧
    (Sorted address_lt (activePrecompiles e) ↔ NoDup merged) ∧
    (NoDup (activePrecompiles e) ↔ NoDup merged).
Proof.
  eexists _, _. split; [by apply NewEVM_run|]. simpl.
  set (D := DefaultActivePrecompiles (chain_rules chainConfig blockCtx)).
  assert (sort_SliceStable less (D ++ reported (rng E))
          ≡ₚ D ++ reported (map_to_list E)) as Hperm.
  { by rewrite active_Permutation, reported_Permutation. }
  split_and!.
  - apply active_Sorted.
  - done.
  - intros a. rewrite <-count_occ_app.
    by apply (Permutation_count_occ Address_eq_dec).
  - rewrite <-Hperm. split; [apply Sorted_address_lt_NoDup|].
    apply Sorted_address_le_lt, active_Sorted.
  - by rewrite Hperm.
Qed.

(** C2. If the extension mapping has an entry at an address that is also
    in the built-in set for the rules, then after construction the lookup
    of the wrapper at that address returns the contract of the extension
    mapping, and not the built-in one when the two differ. *)
Theorem NewEVM_extension_overrides_builtin addr c b :
  E !! addr = Some c →
  DefaultPrecompiles (chain_rules chainConfig blockCtx) !! addr = Some b →
  ∃ e σ',
    NewEVM rng ctx blockCtx txCtx stateDB chainConfig config
      getPrecompilesExtended σ = Some (e, σ') ∧
    Precompile e addr σ' = Some ((Some c, true), σ') ∧
    (b ≠ c → Precompile e addr σ' ≠ Some ((Some b, true), σ')).
Proof.
  intros Hc Hb. eexists _, _. split; [by apply NewEVM_run|].
  erewrite Precompile_run by (simpl; apply lookup_insert_eq).
  erewrite lookup_union_Some_l by done. split; [done|congruence].
Qed.

(** C4. For a constructed wrapper, [ActivePrecompiles] returns, for any
    two rules arguments, the Active Address List built at construction:
    the argument is ignored. *)
Theorem ActivePrecompiles_ignores_rules (r1 r2 : params_Rules) :
  ∃ e σ',
    NewEVM rng ctx blockCtx txCtx stateDB chainConfig config
      getPrecompilesExtended σ = Some (e, σ') ∧
    ActivePrecompiles e r1 σ' = ActivePrecompiles e r2 σ' ∧
    ActivePrecompiles e r2 σ' = Some (activePrecompiles e, σ') ∧
    activePrecompiles e =
      sort_SliceStable less
        (DefaultActivePrecompiles (chain_rules chainConfig blockCtx)
         ++ reported (rng E)).
Proof. eexists _, _. split; [by apply NewEVM_run|]. done. Qed.

(** C5. For a constructed wrapper, the lookup never fails: at every
    address it returns a result and leaves the store as it is; the table
    is the union of the extension mapping and the built-in entries, and
    at an address that is not in it the lookup returns no contract and
    [found = false]. *)
Theorem Precompile_miss_is_not_found :
  ∃ e σ',
    NewEVM rng ctx blockCtx txCtx stateDB chainConfig config
      getPrecompilesExtended σ = Some (e, σ') ∧
    entries σ' (precompiles e) =
      Some (E ∪ DefaultPrecompiles (chain_rules chainConfig blockCtx)) ∧
    (∀ addr, ∃ r, Precompile e addr σ' = Some (r, σ')) ∧
    (∀ addr,
       (E ∪ DefaultPrecompiles (chain_rules chainConfig blockCtx))
         !! addr = None →
       Precompile e addr σ' = Some ((None, false), σ')) ∧
    (∀ addr,
       E !! addr = None →
       DefaultPrecompiles (chain_rules chainConfig blockCtx) !! addr
         = None →
       Precompile e addr σ' = Some ((None, false), σ')).
Proof.
  eexists _, _. split; [by apply NewEVM_run|].
  set (T := E ∪ DefaultPrecompiles (chain_rules chainConfig blockCtx)).
  assert (∀ addr,
    Precompile
      {| EVM_embedded :=
           vm_NewEVM blockCtx txCtx stateDB chainConfig config;
         precompiles := Some (fresh (dom σ));
         activePrecompiles :=
           sort_SliceStable less
             (DefaultActivePrecompiles (chain_rules chainConfig blockCtx)
              ++ reported (rng E)) |} addr (<[fresh (dom σ):=T]> σ) =
    Some (match T !! addr with
          | Some c => (Some c, true)
          | None => (None, false)
          end, <[fresh (dom σ):=T]> σ)) as Hrun.
  { intros addr. apply Precompile_run. simpl. apply lookup_insert_eq. }
  split_and!.
  - simpl. apply lookup_insert_eq.
  - intros addr. rewrite Hrun. eauto.
  - intros addr Hnone. by rewrite Hrun, Hnone.
  - intros addr HnE HnD. rewrite Hrun. unfold T.
    by rewrite (proj2 (lookup_union_None _ _ _) (conj HnE HnD)).
Qed.

(** C10. Every address of the built-in active list for the rules is in
    the Active Address List of the wrapper. *)
Theorem NewEVM_keeps_builtin_addresses :
  ∃ e σ',
    NewEVM rng ctx blockCtx txCtx stateDB chainConfig config
      getPrecompilesExtended σ = Some (e, σ') ∧
    ∀ a,
      a ∈ DefaultActivePrecompiles (chain_rules chainConfig blockCtx) →
      a ∈ activePrecompiles e.
Proof.
  eexists _, _. split; [by apply NewEVM_run|]. simpl. intros a Ha.
  rewrite active_Permutation. apply elem_of_app. by left.
Qed.

(** C6. If the rules activate exactly the built-in precompiles at [0x01]
    and [0x09], and the extension mapping is the single entry of a
    contract at [0x05], then the Active Address List is
    [[0x01, 0x05, 0x09]] and the table resolves the three addresses to
    their contracts. *)
Theorem NewEVM_scenario_01_05_09 c1 c9 ext :
  DefaultActivePrecompiles (chain_rules chainConfig blockCtx)
    ≡ₚ [a01; a09] →
  DefaultPrecompiles (chain_rules chainConfig blockCtx)
    = {[ a01 := c1; a09 := c9 ]} →
  E = {[ a05 := ext ]} →
  Contract_Address ext = a05 →
  ∃ e σ',
    NewEVM rng ctx blockCtx txCtx stateDB chainConfig config
      getPrecompilesExtended σ = Some (e, σ') ∧
    activePrecompiles e = [a01; a05; a09] ∧
    Precompile e a01 σ' = Some ((Some c1, true), σ') ∧
    Precompile e a05 σ' = Some ((Some ext, true), σ') ∧
    Precompile e a09 σ' = Some ((Some c9, true), σ').
Proof.
  intros HA HD -> Hext. eexists _, _. split; [by apply NewEVM_run|].
  assert (a01 ≠ a05) as H15 by (apply (bool_decide_unpack _); by vm_compute).
  assert (a01 ≠ a09) as H19 by (apply (bool_decide_unpack _); by vm_compute).
  assert (a05 ≠ a09) as H59 by (apply (bool_decide_unpack _); by vm_compute).
  erewrite !Precompile_run by (simpl; apply lookup_insert_eq).
  rewrite HD. split_and!.
  - simpl.
    rewrite (active_order_irrelevant _ [a01; a09; a05]); [by vm_compute|].
    rewrite reported_Permutation, HA, map_to_list_singleton.
    unfold reported. simpl. by rewrite Hext.
  - by simplify_map_eq.
  - by simplify_map_eq.
  - by simplify_map_eq.
Qed.

(** C7. After construction no operation of the wrapper writes to the
    store, so that none changes the table; the list is a field of a
    wrapper that no operation replaces. The table is a map object other
    than the extension mapping: whatever the extension mapping is changed
    to after construction, the table, the lookups and the list remain
    what they were. *)
Theorem wrapper_is_immutable_snapshot :
  ∃ e σ',
    NewEVM rng ctx blockCtx txCtx stateDB chainConfig config
      getPrecompilesExtended σ = Some (e, σ') ∧
    (∀ addr, ∃ r, Precompile e addr σ' = Some (r, σ')) ∧
    (∀ rules, ActivePrecompiles e rules σ'
              = Some (activePrecompiles e, σ')) ∧
    (Context e σ' = Some (blockCtx, σ')) ∧
    (TxContext e σ' = Some (txCtx, σ')) ∧
    (Config e σ' = Some (config, σ')) ∧
    ∀ lE (E' : PrecompiledContracts),
      getPrecompilesExtended ctx
        (vm_NewEVM blockCtx txCtx stateDB chainConfig config) = Some lE →
      entries (<[lE:=E']> σ') (precompiles e)
        = entries σ' (precompiles e) ∧
      (∀ addr,
         fst <$> Precompile e addr (<[lE:=E']> σ')
         = fst <$> Precompile e addr σ') ∧
      (∀ rules,
         fst <$> ActivePrecompiles e rules (<[lE:=E']> σ')
         = fst <$> ActivePrecompiles e rules σ').
Proof.
  eexists _, _. split; [by apply NewEVM_run|].
  split_and!; try done.
  - intros addr.
    erewrite Precompile_run by (simpl; apply lookup_insert_eq). eauto.
  - intros lE E' HlE. rewrite HlE in HE. simpl in HE.
    assert (lE ≠ fresh (dom σ)) as Hne.
    { intros ->.
      by rewrite (proj1 (not_elem_of_dom _ _) (is_fresh _)) in HE. }
    assert (∀ T : PrecompiledContracts,
      (<[lE:=E']> (<[fresh (dom σ):=T]> σ)) !! fresh (dom σ) = Some T)
      as Hkeep.
    { intros T. rewrite lookup_insert_ne by done. apply lookup_insert_eq. }
    split_and!; [|intros addr|done].
    + simpl. by rewrite Hkeep, lookup_insert_eq.
    + erewrite (Precompile_run _ (<[lE:=E']> _)) by (simpl; apply Hkeep).
      erewrite Precompile_run by (simpl; apply lookup_insert_eq). done.
Qed.

(** C8. The rules from which the table and the list are built are
    [chainConfig.Rules(blockCtx.BlockNumber, blockCtx.Random != nil)]:
    two block contexts with the same height that agree on whether block
    randomness is present give, for the same chain configuration and
    extension mapping, the same table and the same list. *)
Theorem NewEVM_rules_from_height_and_randomness
    (blockCtx2 : vm_BlockContext) (σ2 : Store) :
  BlockNumber blockCtx2 = BlockNumber blockCtx →
  (Random blockCtx2 = None ↔ Random blockCtx = None) →
  entries σ2 (getPrecompilesExtended ctx
    (vm_NewEVM blockCtx2 txCtx stateDB chainConfig config)) = Some E →
  let rules :=
    ChainConfig_Rules chainConfig (BlockNumber blockCtx)
      (not_nil (Random blockCtx)) in
  ∃ e1 σ1' e2 σ2',
    NewEVM rng ctx blockCtx txCtx stateDB chainConfig config
      getPrecompilesExtended σ = Some (e1, σ1') ∧
    NewEVM rng ctx blockCtx2 txCtx stateDB chainConfig config
      getPrecompilesExtended σ2 = Some (e2, σ2') ∧
    entries σ1' (precompiles e1) = Some (E ∪ DefaultPrecompiles rules) ∧
    entries σ2' (precompiles e2) = Some (E ∪ DefaultPrecompiles rules) ∧
    activePrecompiles e1 =
      sort_SliceStable less
        (DefaultActivePrecompiles rules ++ reported (rng E)) ∧
    activePrecompiles e2 = activePrecompiles e1.
Proof.
  intros Hnum Hrandom HE2 rules.
  assert (chain_rules chainConfig blockCtx2 = rules) as Hrules.
  { unfold chain_rules, rules. rewrite Hnum. f_equal.
    destruct Hrandom as [H21 H12].
    destruct (Random blockCtx2), (Random blockCtx); simpl; try done.
    - by specialize (H12 eq_refl).
    - by specialize (H21 eq_refl). }
  eexists _, _, _, _.
  split; [by apply NewEVM_run|]. split; [by apply NewEVM_run|].
  rewrite Hrules. fold (chain_rules chainConfig blockCtx).
  split_and!; try done; simpl; apply lookup_insert_eq.
Qed.

(** C9, amended. For an entry [(k, v)] of the extension mapping, the
    table is keyed by [k] and the address appended to the list is the one
    that [v] reports: the lookup at [k] returns [v], and the list holds
    the address of [v]. The list holds [k] exactly when [k] is in the
    built-in active list or is the address that some contract of the
    extension mapping reports. *)
Theorem NewEVM_key_and_reported_address k v :
  E !! k = Some v →
  ∃ e σ',
    NewEVM rng ctx blockCtx txCtx stateDB chainConfig config
      getPrecompilesExtended σ = Some (e, σ') ∧
    Precompile e k σ' = Some ((Some v, true), σ') ∧
    Contract_Address v ∈ activePrecompiles e ∧
    activePrecompiles e ≡ₚ
      DefaultActivePrecompiles (chain_rules chainConfig blockCtx)
      ++ reported (map_to_list E) ∧
    (k ∈ activePrecompiles e ↔
       k ∈ DefaultActivePrecompiles (chain_rules chainConfig blockCtx) ∨
       ∃ k' v', E !! k' = Some v' ∧ Contract_Address v' = k).
Proof.
  intros Hkv. eexists _, _. split; [by apply NewEVM_run|].
  erewrite Precompile_run by (simpl; apply lookup_insert_eq).
  erewrite lookup_union_Some_l by done. simpl.
  set (D := DefaultActivePrecompiles (chain_rules chainConfig blockCtx)).
  assert (∀ a, a ∈ sort_SliceStable less (D ++ reported (rng E)) ↔
               a ∈ D ∨ ∃ k' v', E !! k' = Some v' ∧ Contract_Address v' = a)
    as Hin.
  { intros a.
    rewrite active_Permutation, reported_Permutation, elem_of_app.
    unfold reported. rewrite list_elem_of_fmap.
    split; (intros [?|Hext]; [by left|right]).
    - destruct Hext as ([k' v'] & -> & Hin%elem_of_map_to_list). eauto.
    - destruct Hext as (k' & v' & Hin & <-).
      exists (k', v'). by rewrite elem_of_map_to_list. }
  split_and!; [done| |by rewrite active_Permutation, reported_Permutation|
               apply Hin].
  apply Hin. eauto.
Qed.
End claims.

(** ** The scenarios *)

Section scenarios.
Import Scenario.

Example sort_whole_list :
  activePrecompiles <$>
    (fst <$> NewEVM in_reverse () blockCtx txCtx () chain_unsorted ()
               provider (store_of {[ a05 := ext05 ]}))
  = Some [a01; a05; a09].
Proof. by vm_compute. Qed.

Example empty_extension :
  activePrecompiles <$> (fst <$> build in_order ∅) = Some [a01; a09].
Proof. by vm_compute. Qed.

Example nil_extension :
  activePrecompiles <$>
    (fst <$> NewEVM in_order () blockCtx txCtx () chain () (λ _ _, None) ∅)
  = Some [a01; a09].
Proof. by vm_compute. Qed.

(** The sorted list of an extension that overrides [0x01] and adds [0x05]:
    [0x01] occurs twice. *)
Lemma NewEVM_active_list_sorted_witness :
  ∃ e σ',
    build in_order E_two = Some (e, σ') ∧
    Sorted address_le (activePrecompiles e) ∧
    count_occ Address_eq_dec (activePrecompiles e) a01 = 2%nat.
Proof.
  destruct (NewEVM_active_list_sorted in_order () blockCtx txCtx () chain
              () provider (store_of E_two) E_two eq_refl)
    as (e & σ' & Hrun & Hsorted & _ & Hcount & _).
  exists e, σ'. split; [exact Hrun|]. split; [exact Hsorted|].
  rewrite Hcount. by vm_compute.
Defined.

(** C1 fails: an extension that overrides the built-in at [0x01] puts
    this address twice in the list. *)
Lemma NewEVM_active_list_duplicate :
  ∃ e σ',
    build in_order E_override = Some (e, σ') ∧
    activePrecompiles e = [a01; a01; a09] ∧
    ¬ NoDup (activePrecompiles e) ∧
    ¬ Sorted address_lt (activePrecompiles e).
Proof.
  eexists _, _. split; [by apply NewEVM_run|].
  assert (¬ NoDup [a01; a01; a09]) as Hdup.
  { intros [Hnotin _]%NoDup_cons. apply Hnotin. by left. }
  split; [by vm_compute|]. split; [by vm_compute|].
  intros Hsorted. by apply Hdup, Sorted_address_lt_NoDup.
Qed.

(** The custom contract at [0x01] replaces the built-in one. *)
Lemma NewEVM_extension_overrides_builtin_witness :
  ∃ e σ',
    build in_order E_override = Some (e, σ') ∧
    Precompile e a01 σ' = Some ((Some custom01, true), σ') ∧
    (builtin01 ≠ custom01 →
     Precompile e a01 σ' ≠ Some ((Some builtin01, true), σ')).
Proof.
  apply (NewEVM_extension_overrides_builtin in_order () blockCtx txCtx ()
           chain () provider (store_of E_override) E_override eq_refl
           a01 custom01 builtin01); reflexivity.
Defined.

(** Two different rules arguments give the same list. *)
Lemma ActivePrecompiles_ignores_rules_witness :
  ∃ e σ',
    build in_order E_two = Some (e, σ') ∧
    ActivePrecompiles e [builtin01] σ' = ActivePrecompiles e [] σ'.
Proof.
  destruct (ActivePrecompiles_ignores_rules in_order () blockCtx txCtx ()
              chain () provider (store_of E_two) E_two eq_refl
              [builtin01] [])
    as (e & σ' & Hrun & Heq & _).
  exists e, σ'. split; [exact Hrun|exact Heq].
Defined.

(** The address [0x0a] is in neither mapping. *)
Lemma Precompile_miss_is_not_found_witness :
  ∃ e σ',
    build in_order E_two = Some (e, σ') ∧
    Precompile e a0a σ' = Some ((None, false), σ').
Proof.
  destruct (Precompile_miss_is_not_found in_order () blockCtx txCtx ()
              chain () provider (store_of E_two) E_two eq_refl)
    as (e & σ' & Hrun & _ & _ & _ & Hmiss).
  exists e, σ'. split; [exact Hrun|]. apply Hmiss; reflexivity.
Defined.

(** The scenario on the concrete base VM. *)
Lemma NewEVM_scenario_01_05_09_witness :
  ∃ e σ',
    build in_order {[ a05 := ext05 ]} = Some (e, σ') ∧
    activePrecompiles e = [a01; a05; a09] ∧
    Precompile e a01 σ' = Some ((Some builtin01, true), σ') ∧
    Precompile e a05 σ' = Some ((Some ext05, true), σ') ∧
    Precompile e a09 σ' = Some ((Some builtin09, true), σ').
Proof.
  apply (NewEVM_scenario_01_05_09 in_order () blockCtx txCtx () chain ()
           provider (store_of {[ a05 := ext05 ]}) {[ a05 := ext05 ]}
           eq_refl builtin01 builtin09 ext05); reflexivity.
Defined.

(** The extension map is emptied after the construction. *)
Lemma wrapper_is_immutable_snapshot_witness :
  ∃ e σ',
    build in_order E_two = Some (e, σ') ∧
    (∀ addr,
       fst <$> Precompile e addr (<[ext_loc:=∅]> σ')
       = fst <$> Precompile e addr σ') ∧
    (∀ rules,
       fst <$> ActivePrecompiles e rules (<[ext_loc:=∅]> σ')
       = fst <$> ActivePrecompiles e rules σ').
Proof.
  destruct (wrapper_is_immutable_snapshot in_order () blockCtx txCtx ()
              chain () provider (store_of E_two) E_two eq_refl)
    as (e & σ' & Hrun & _ & _ & _ & _ & _ & Hsnapshot).
  exists e, σ'. split; [exact Hrun|].
  apply (Hsnapshot ext_loc ∅ eq_refl).
Defined.

(** Two blocks of height 7 with randomness, on a chain whose rules depend
    on its presence. *)
Lemma NewEVM_rules_from_height_and_randomness_witness :
  ∃ e1 σ1' e2 σ2',
    NewEVM in_order () blockCtx_random txCtx () chain_merge () provider
      (store_of E_two) = Some (e1, σ1') ∧
    NewEVM in_order () blockCtx_random' txCtx () chain_merge () provider
      (store_of E_two) = Some (e2, σ2') ∧
    entries σ2' (precompiles e2) = entries σ1' (precompiles e1) ∧
    activePrecompiles e2 = activePrecompiles e1.
Proof.
  assert (Random blockCtx_random' = None ↔ Random blockCtx_random = None)
    as Hrandom by (simpl; split; discriminate).
  destruct (NewEVM_rules_from_height_and_randomness in_order ()
              blockCtx_random txCtx () chain_merge () provider
              (store_of E_two) E_two eq_refl
              blockCtx_random' (store_of E_two) eq_refl Hrandom eq_refl)
    as (e1 & σ1' & e2 & σ2' & Hrun1 & Hrun2 & HT1 & HT2 & _ & Hlist).
  exists e1, σ1', e2, σ2'. rewrite HT1, HT2.
  split; [exact Hrun1|]. split; [exact Hrun2|]. split; [reflexivity|].
  exact Hlist.
Defined.

(** The contract filed under [0x01] reports [0x0a]. *)
Lemma NewEVM_key_and_reported_address_witness :
  ∃ e σ',
    build in_order E_misfiled = Some (e, σ') ∧
    Precompile e a01 σ' = Some ((Some custom0a, true), σ') ∧
    a0a ∈ activePrecompiles e.
Proof.
  destruct (NewEVM_key_and_reported_address in_order () blockCtx txCtx ()
              chain () provider (store_of E_misfiled) E_misfiled eq_refl
              a01 custom0a eq_refl)
    as (e & σ' & Hrun & Hlookup & Hin & _).
  exists e, σ'. split; [exact Hrun|]. split; [exact Hlookup|exact Hin].
Defined.

(** C9 fails: the entry at the key [0x01] holds a contract that reports
    [0x0a]; the list holds [0x0a], and it holds the key as well, which is
    a built-in address. *)
Lemma NewEVM_key_in_active_list :
  ∃ e σ',
    build in_order E_misfiled = Some (e, σ') ∧
    E_misfiled !! a01 = Some custom0a ∧
    a01 ≠ Contract_Address custom0a ∧
    Precompile e a01 σ' = Some ((Some custom0a, true), σ') ∧
    activePrecompiles e = [a01; a09; a0a] ∧
    a01 ∈ activePrecompiles e.
Proof.
  eexists _, _. split; [by apply NewEVM_run|].
  split; [done|]. split; [by vm_compute|].
  split.
  { erewrite Precompile_run by (simpl; apply lookup_insert_eq).
    by erewrite lookup_union_Some_l. }
  split; [by vm_compute|]. by left.
Qed.

(** The built-in address [0x09] is still listed. *)
Lemma NewEVM_keeps_builtin_addresses_witness :
  ∃ e σ',
    build in_order E_two = Some (e, σ') ∧ a09 ∈ activePrecompiles e.
Proof.
  destruct (NewEVM_keeps_builtin_addresses in_order () blockCtx txCtx ()
              chain () provider (store_of E_two) E_two eq_refl)
    as (e & σ' & Hrun & Hin).
  exists e, σ'. split; [exact Hrun|]. apply Hin. by vm_compute; right; left.
Defined.
End scenarios.

(** ** More on the constructor *)

Section constructor_facts.
Context {geth : GoEthereum}.
Context (rng : MapRange) (ctx : sdk_Context)
  (blockCtx : vm_BlockContext) (txCtx : vm_TxContext)
  (stateDB : vm_StateDB) (chainConfig : params_ChainConfig)
  (config : vm_Config)
  (getPrecompilesExtended : sdk_Context → vm_EVM → mapref)
  (σ : Store) (E : PrecompiledContracts).

Context (HE :
  entries σ (getPrecompilesExtended ctx
    (vm_NewEVM blockCtx txCtx stateDB chainConfig config)) = Some E).

(** X1. Without extension contracts, the callback handing back [nil] or an
    empty map, the table holds the built-in entries and nothing else, and
    the list is the built-in active list sorted; it is the built-in active
    list itself when that one is sorted. *)
Theorem NewEVM_without_extension :
  E = ∅ →
  ∃ e σ',
    NewEVM rng ctx blockCtx txCtx stateDB chainConfig config
      getPrecompilesExtended σ = Some (e, σ') ∧
    entries σ' (precompiles e) =
      Some (DefaultPrecompiles (chain_rules chainConfig blockCtx)) ∧
    activePrecompiles e =
      sort_SliceStable less
        (DefaultActivePrecompiles (chain_rules chainConfig blockCtx)) ∧
    (Sorted address_le
       (DefaultActivePrecompiles (chain_rules chainConfig blockCtx)) →
     activePrecompiles e =
       DefaultActivePrecompiles (chain_rules chainConfig blockCtx)).
Proof.
  intros ->. eexists _, _. split; [by apply NewEVM_run|]. simpl.
  rewrite range_order_empty. unfold reported.
  rewrite fmap_nil, (right_id_L [] (++)), (left_id_L ∅ (∪)).
  split; [apply lookup_insert_eq|]. split; [done|].
  intros Hsorted. symmetry. by apply sort_SliceStable_unique.
Qed.

(** X2. The extension mapping leaves the other built-in contracts in
    place: at an address that is not a key of it, the lookup returns what
    the built-in table has there, the contract and [true], or no contract
    and [false]. *)
Theorem Precompile_outside_extension addr :
  E !! addr = None →
  ∃ e σ',
    NewEVM rng ctx blockCtx txCtx stateDB chainConfig config
      getPrecompilesExtended σ = Some (e, σ') ∧
    Precompile e addr σ' =
      Some (match DefaultPrecompiles (chain_rules chainConfig blockCtx)
                    !! addr with
            | Some b => (Some b, true)
            | None => (None, false)
            end, σ').
Proof.
  intros Hnone. eexists _, _. split; [by apply NewEVM_run|].
  erewrite Precompile_run by (simpl; apply lookup_insert_eq).
  by rewrite lookup_union_r.
Qed.

(** X3. The list has one address for each built-in active address and one
    for each entry of the extension mapping. *)
Theorem NewEVM_active_list_length :
  ∃ e σ',
    NewEVM rng ctx blockCtx txCtx stateDB chainConfig config
      getPrecompilesExtended σ = Some (e, σ') ∧
    length (activePrecompiles e) =
      (length (DefaultActivePrecompiles (chain_rules chainConfig blockCtx))
       + size E)%nat.
Proof.
  eexists _, _. split; [by apply NewEVM_run|]. simpl.
  rewrite active_Permutation, length_app. unfold reported.
  rewrite length_fmap, (range_order_perm rng E).
  by rewrite length_map_to_list.
Qed.

(** X5. If the built-in active list names the keys of the built-in table,
    and each extension contract is filed under the address that it
    reports, then the list and the table agree: an address is in the list
    exactly when the lookup finds a contract there. *)
Theorem NewEVM_list_and_table_agree :
  (∀ a, a ∈ DefaultActivePrecompiles (chain_rules chainConfig blockCtx) ↔
        is_Some (DefaultPrecompiles (chain_rules chainConfig blockCtx)
                   !! a)) →
  (∀ k v, E !! k = Some v → Contract_Address v = k) →
  ∃ e σ',
    NewEVM rng ctx blockCtx txCtx stateDB chainConfig config
      getPrecompilesExtended σ = Some (e, σ') ∧
    ∀ a, a ∈ activePrecompiles e ↔
         (∃ c, Precompile e a σ' = Some ((Some c, true), σ')).
Proof.
  intros Hbuiltin Hfiled. eexists _, _. split; [by apply NewEVM_run|].
  intros a. erewrite Precompile_run by (simpl; apply lookup_insert_eq).
  simpl. rewrite active_Permutation, reported_Permutation, elem_of_app.
  unfold reported. rewrite list_elem_of_fmap, Hbuiltin.
  set (D := DefaultPrecompiles (chain_rules chainConfig blockCtx)).
  destruct (E !! a) as [c|] eqn:HEa.
  - rewrite (lookup_union_Some_l E D a c HEa). split; [eauto|].
    intros _. right. exists (a, c). split.
    + simpl. symmetry. by apply Hfiled.
    + by apply elem_of_map_to_list.
  - rewrite (lookup_union_r E D a HEa). split.
    + intros [[b Hb]|([k v] & -> & Hin%elem_of_map_to_list)].
      * rewrite Hb. eauto.
      * simpl in HEa. rewrite (Hfiled k v Hin) in HEa. congruence.
    + intros [c Hc]. left. destruct (D !! a); [eauto|].
      by injection Hc.
Qed.
End constructor_facts.

Section constructor_scenarios.
Import Scenario.

(** The scenario with the callback that hands back [nil]. *)
Lemma NewEVM_without_extension_witness :
  ∃ e σ',
    NewEVM in_order () blockCtx txCtx () chain () (λ _ _, None) ∅
      = Some (e, σ') ∧
    activePrecompiles e = [a01; a09].
Proof.
  destruct (NewEVM_without_extension in_order () blockCtx txCtx () chain ()
              (λ _ _, None) ∅ ∅ eq_refl eq_refl)
    as (e & σ' & Hrun & _ & _ & Hlist).
  exists e, σ'. split; [exact Hrun|]. apply Hlist.
  apply (bool_decide_unpack _). by vm_compute.
Defined.

(** The built-in at [0x09] stays in place when [0x01] is overridden. *)
Lemma Precompile_outside_extension_witness :
  ∃ e σ',
    build in_order E_override = Some (e, σ') ∧
    Precompile e a09 σ' = Some ((Some builtin09, true), σ').
Proof.
  apply (Precompile_outside_extension in_order () blockCtx txCtx () chain ()
           provider (store_of E_override) E_override eq_refl a09 eq_refl).
Defined.

(** Two built-ins and two extension entries give four addresses. *)
Lemma NewEVM_active_list_length_witness :
  ∃ e σ',
    build in_order E_two = Some (e, σ') ∧
    length (activePrecompiles e) = 4%nat.
Proof.
  apply (NewEVM_active_list_length in_order () blockCtx txCtx () chain ()
           provider (store_of E_two) E_two eq_refl).
Defined.

(** Each of [0x01], [0x05] and [0x09] is listed and found; [0x0a] is
    neither. *)
Lemma NewEVM_list_and_table_agree_witness :
  ∃ e σ',
    build in_order E_two = Some (e, σ') ∧
    (a05 ∈ activePrecompiles e ↔
     ∃ c, Precompile e a05 σ' = Some ((Some c, true), σ')).
Proof.
  assert (∀ a, a ∈ DefaultActivePrecompiles (chain_rules chain blockCtx) ↔
               is_Some (DefaultPrecompiles (chain_rules chain blockCtx) !! a))
    as Hbuiltin.
  { intros a.
    change (a ∈ [a01; a09] ↔
            is_Some ((<[a01:=builtin01]> (<[a09:=builtin09]> ∅)
                        : gmap Address contract) !! a)).
    rewrite !lookup_insert_is_Some', lookup_empty, is_Some_alt.
    rewrite !elem_of_cons, elem_of_nil. intuition congruence. }
  assert (∀ k v, E_two !! k = Some v → Contract_Address v = k) as Hfiled.
  { intros k v.
    change (E_two !! k) with
      ((<[a01:=custom01]> (<[a05:=ext05]> ∅) : gmap Address contract) !! k).
    rewrite !lookup_insert_Some, lookup_empty.
    intros [[<- <-]|[_ [[<- <-]|[_ ?]]]]; done. }
  destruct (NewEVM_list_and_table_agree in_order () blockCtx txCtx () chain
              () provider (store_of E_two) E_two eq_refl Hbuiltin Hfiled)
    as (e & σ' & Hrun & Hagree).
  exists e, σ'. split; [exact Hrun|apply Hagree].
Defined.
End constructor_scenarios.

(** ** The constructor over slices *)

(** A slice holds as many elements as its length says. *)
Lemma slice_elements_length arrays s L :
  slice_elements arrays s = Some L → length L = slice_len s.
Proof.
  unfold slice_elements. destruct (slice_array s) as [l|].
  - destruct (arrays !! l) as [a|]; simpl; [|done].
    case_decide; [|done]. intros [= <-]. rewrite length_take. lia.
  - case_decide as Hlen; [|done]. intros [= <-]. by rewrite Hlen.
Qed.

(** What a slice holds depends on its own array only. *)
Lemma slice_elements_frame arrays arrays' s :
  (∀ l, slice_array s = Some l → arrays' !! l = arrays !! l) →
  slice_elements arrays' s = slice_elements arrays s.
Proof.
  unfold slice_elements. intros H. destruct (slice_array s) as [l|]; [|done].
  by rewrite H.
Qed.

Lemma slice_ok_dom arrays s l :
  slice_ok arrays s → slice_array s = Some l → l ∈ dom arrays.
Proof.
  intros [_ Hok] Hl. rewrite Hl in Hok. destruct Hok as (a & Ha & _).
  by apply elem_of_dom.
Qed.

(** The appends of the loop do not panic on a well-formed slice. The
    slice they return holds the elements of the first one followed by the
    appended ones. They write into the array of the first slice beyond its
    length only, and into new arrays; they stay in the array of the first
    slice exactly when its capacity holds all the appended elements. *)
Lemma slice_appends_spec grow xs : ∀ s arrays L,
  slice_ok arrays s → slice_elements arrays s = Some L →
  ∃ s' arrays',
    slice_appends grow s xs arrays = Some (s', arrays') ∧
    slice_ok arrays' s' ∧
    slice_elements arrays' s' = Some (L ++ xs) ∧
    dom arrays ⊆ dom arrays' ∧
    (∀ l, l ∈ dom arrays → slice_array s ≠ Some l →
          arrays' !! l = arrays !! l) ∧
    slice_ok arrays' s ∧
    slice_elements arrays' s = Some L ∧
    ((slice_len s + length xs ≤ slice_cap s)%nat →
       slice_array s' = slice_array s ∧ slice_cap s' = slice_cap s) ∧
    ((slice_cap s < slice_len s + length xs)%nat →
       ∃ l', slice_array s' = Some l' ∧ l' ∉ dom arrays).
Proof.
  induction xs as [|x xs IH]; intros s arrays L Hok HL.
  { exists s, arrays. cbn [slice_appends length].
    rewrite (right_id_L [] (++)). pose proof Hok as [Hlen Harr].
    repeat split; try done; lia. }
  pose proof (slice_elements_length _ _ _ HL) as HlenL.
  cbn [slice_appends length]. unfold slice_append.
  destruct Hok as [Hlen Harr].
  destruct (decide (slice_len s < slice_cap s)%nat) as [Hroom|Hfull].
  - destruct (slice_array s) as [l|] eqn:Hl; [|lia].
    destruct Harr as (a & Ha & Hcap).
    cbn [mbind option_bind]. rewrite Ha. cbn [mbind option_bind].
    rewrite decide_True by lia.
    set (s1 := {| slice_array := Some l; slice_len := S (slice_len s);
                  slice_cap := slice_cap s |}).
    set (arrays1 := <[l:=<[slice_len s:=x]> a]> arrays).
    assert (slice_elements arrays s = Some (take (slice_len s) a)) as HL'.
    { unfold slice_elements. rewrite Hl. simpl. rewrite Ha. simpl.
      by rewrite decide_True by lia. }
    assert (L = take (slice_len s) a) as HLa by congruence.
    destruct (IH s1 arrays1 (L ++ [x])) as
      (s' & arrays' & Hrun & Hok' & Hs' & Hdom & Hframe & Hok1 & Hs1
       & Hin & Hout).
    { split; [simpl; lia|]. simpl. exists (<[slice_len s:=x]> a).
      unfold arrays1. rewrite lookup_insert_eq, length_insert. done. }
    { unfold slice_elements, arrays1. simpl. rewrite lookup_insert_eq. simpl.
      rewrite length_insert, decide_True by lia. f_equal.
      rewrite HLa.
      rewrite (take_S_r _ _ x) by (apply list_lookup_insert_eq; lia).
      by rewrite take_insert_ge by lia. }
    exists s', arrays'. rewrite Hrun.
    assert (dom arrays1 = dom arrays) as Hdom1.
    { unfold arrays1. apply dom_insert_lookup_L. by eexists. }
    split_and!.
    + done.
    + done.
    + by rewrite Hs', <-(assoc_L (++)).
    + by rewrite <-Hdom1.
    + intros l0 Hl0 Hne. rewrite Hframe.
      * unfold arrays1. rewrite lookup_insert_ne; [done|]. congruence.
      * by rewrite Hdom1.
      * simpl. congruence.
    + destruct Hok1 as [_ Harr1]. split; [done|]. by rewrite Hl.
    + unfold slice_elements in Hs1 |- *. rewrite Hl. simpl in Hs1.
      destruct (arrays' !! l) as [a'|]; simpl in *; [|done].
      case_decide as Hlen'; [|done]. rewrite decide_True by lia.
      injection Hs1 as Hs1. f_equal.
      apply (f_equal (take (slice_len s))) in Hs1.
      rewrite take_take, Nat.min_l in Hs1 by lia. rewrite Hs1.
      rewrite take_app_length'; [done|lia].
    + intros Hfit. destruct Hin as [Harr' Hcap']; [simpl; lia|].
      by rewrite Harr', Hcap'.
    + intros Hover. destruct Hout as (l' & Hl' & Hnew); [simpl; lia|].
      exists l'. split; [done|]. by rewrite <-Hdom1.
  - assert (slice_len s = slice_cap s) as Hlc by lia.
    rewrite HL. cbn [mbind option_bind].
    set (c := grow (slice_cap s) (S (slice_len s))).
    set (l1 := fresh (dom arrays)).
    set (s1 := {| slice_array := Some l1; slice_len := S (slice_len s);
                  slice_cap := c |}).
    set (a1 := L ++ x :: replicate (c - S (slice_len s)) Address_zero).
    set (arrays1 := <[l1:=a1]> arrays).
    assert (S (slice_len s) ≤ c)%nat as Hc by apply growslice_enough.
    assert (l1 ∉ dom arrays) as Hl1 by apply is_fresh.
    assert (length a1 = c) as Ha1.
    { unfold a1. rewrite length_app. simpl. rewrite length_replicate. lia. }
    destruct (IH s1 arrays1 (L ++ [x])) as
      (s' & arrays' & Hrun & Hok' & Hs' & Hdom & Hframe & Hok1 & Hs1
       & Hin & Hout).
    { split; [simpl; lia|]. simpl. exists a1.
      unfold arrays1. rewrite lookup_insert_eq. split; [done|lia]. }
    { unfold slice_elements, arrays1. simpl. rewrite lookup_insert_eq. simpl.
      rewrite decide_True by lia. f_equal. unfold a1.
      rewrite (cons_middle x), (assoc_L (++)).
      rewrite take_app_length'; [done|]. rewrite length_app. simpl. lia. }
    assert (dom arrays ⊆ dom arrays1) as Hdom1.
    { unfold arrays1. rewrite dom_insert. apply union_subseteq_r. }
    assert (∀ l, l ∈ dom arrays → arrays' !! l = arrays !! l) as Hold.
    { intros l0 Hl0. rewrite Hframe.
      - unfold arrays1. rewrite lookup_insert_ne; [done|].
        intros ->. done.
      - by apply Hdom1.
      - simpl. intros [= ->]. done. }
    exists s', arrays'. rewrite Hrun. split_and!.
    + done.
    + done.
    + by rewrite Hs', <-(assoc_L (++)).
    + by etrans.
    + intros l0 Hl0 _. by apply Hold.
    + split; [done|]. destruct (slice_array s) as [l|]; [|done].
      destruct Harr as (a & Ha & Hcap). exists a. split; [|done].
      rewrite Hold; [done|]. by apply elem_of_dom.
    + rewrite <-HL. apply slice_elements_frame. intros l Hl.
      apply Hold. eapply slice_ok_dom; [|done]. by split.
    + intros Hfit. lia.
    + intros _. destruct (decide (S (slice_len s) + length xs ≤ c)%nat)
        as [Hfit|Hover].
      * destruct Hin as [Harr' _]; [simpl; lia|]. exists l1. by split.
      * destruct Hout as (l' & Hl' & Hnew); [simpl; lia|].
        exists l'. split; [done|]. intros Hin'. by apply Hnew, Hdom1.
Qed.

Lemma sort_SliceStable_length {A} (lt : A → A → bool) l :
  length (sort_SliceStable lt l) = length l.
Proof. apply Permutation_length, sort_SliceStable_Permutation. Qed.

(** The sort in place writes into the array of its slice only; every
    slice that starts in the same array and is no longer reads a prefix of
    the sorted elements after it. *)
Lemma sort_SliceStable_in_place_spec lt arrays s L :
  slice_ok arrays s → slice_elements arrays s = Some L →
  ∃ arrays',
    sort_SliceStable_in_place lt s arrays = Some ((), arrays') ∧
    (∀ t, slice_ok arrays t → slice_ok arrays' t) ∧
    dom arrays' = dom arrays ∧
    (∀ l, slice_array s ≠ Some l → arrays' !! l = arrays !! l) ∧
    (∀ t, slice_array t = slice_array s → (slice_len t ≤ slice_len s)%nat →
          slice_elements arrays' t =
            Some (take (slice_len t) (sort_SliceStable lt L))).
Proof.
  intros [Hlen Harr] HL. unfold sort_SliceStable_in_place.
  unfold slice_elements in HL. unfold slice_ok.
  destruct (slice_array s) as [l|] eqn:Hl.
  - destruct Harr as (a & Ha & Hcap). rewrite Ha in HL |- *.
    cbn [mbind option_bind] in *.
    rewrite decide_True in HL by lia. rewrite decide_True by lia.
    injection HL as <-.
    set (L := take (slice_len s) a).
    assert (length (sort_SliceStable lt L) = slice_len s) as Hsorted.
    { rewrite sort_SliceStable_length. unfold L. rewrite length_take. lia. }
    set (a' := sort_SliceStable lt L ++ drop (slice_len s) a).
    assert (length a' = length a) as Ha'.
    { unfold a'. rewrite length_app, length_drop. lia. }
    eexists. split; [done|]. fold a'. split_and!.
    + intros t [Hlent Harrt]. split; [done|].
      destruct (slice_array t) as [l0|]; [|done].
      destruct Harrt as (a0 & Ha0 & Hcap0).
      destruct (decide (l0 = l)) as [->|Hne].
      * exists a'. rewrite lookup_insert_eq. split; [done|].
        rewrite Ha'. congruence.
      * exists a0. by rewrite lookup_insert_ne.
    + apply dom_insert_lookup_L. by eexists.
    + intros l0 Hne. rewrite lookup_insert_ne; [done|]. congruence.
    + intros t Ht Hlt. unfold slice_elements. rewrite Ht, lookup_insert_eq.
      cbn [mbind option_bind]. rewrite decide_True by lia. f_equal.
      unfold a'. rewrite take_app_le; [done|lia].
  - case_decide as Hzero; [|done]. injection HL as <-.
    eexists. split; [done|]. split_and!; try done.
    intros t Ht Hlt. unfold slice_elements. rewrite Ht.
    rewrite decide_True by lia. by destruct (slice_len t).
Qed.

Section in_place_run.
Context {geth : GoEthereum}.

Lemma reported_length (rng : MapRange) (E : PrecompiledContracts) :
  length (reported (rng E)) = size E.
Proof.
  unfold reported. rewrite length_fmap, (range_order_perm rng E).
  apply length_map_to_list.
Qed.

(** The loop over slices: the assignments to the table and the appends
    to the slice do not meet. *)
Lemma InPlace_range_customPrecompiles_run grow kvs p
    (m : PrecompiledContracts) s (h : InPlace.Heap) :
  InPlace.heap_maps h !! p = Some m →
  InPlace.range_customPrecompiles grow kvs (Some p) s h =
    match slice_appends grow s (reported kvs) (InPlace.heap_arrays h) with
    | Some (s', arrays') =>
        Some (s', {| InPlace.heap_maps :=
                       <[p:=foldl assign_entry m kvs]> (InPlace.heap_maps h);
                     InPlace.heap_arrays := arrays' |})
    | None => None
    end.
Proof.
  revert m s h.
  induction kvs as [|[k v] kvs IH]; intros m s [σ arrays] Hp; simpl in Hp.
  { cbn. by rewrite insert_id. }
  cbn [InPlace.range_customPrecompiles foldl]. unfold reported.
  rewrite fmap_cons. fold (reported kvs). cbn [slice_appends snd].
  unfold mbind at 1. unfold InPlace.GoHeap_bind at 1.
  unfold InPlace.on_maps at 1, map_assign.
  cbn [InPlace.heap_maps InPlace.heap_arrays]. rewrite Hp.
  cbn [option_bind mbind option_ret].
  unfold mbind at 1. unfold InPlace.GoHeap_bind at 1.
  unfold InPlace.on_arrays at 1. cbn [InPlace.heap_maps InPlace.heap_arrays].
  destruct (slice_append grow s (Contract_Address v) arrays)
    as [[s1 arrays1]|]; [|done].
  rewrite (IH (<[k:=v]> m)) by apply lookup_insert_eq.
  cbn [InPlace.heap_maps InPlace.heap_arrays].
  by rewrite insert_insert_eq.
Qed.

Section run.
Context (rng : MapRange) (grow : Growth)
  (vm_DefaultActivePrecompiles : params_Rules → slice)
  (ctx : sdk_Context) (blockCtx : vm_BlockContext) (txCtx : vm_TxContext)
  (stateDB : vm_StateDB) (chainConfig : params_ChainConfig)
  (config : vm_Config)
  (getPrecompilesExtended : sdk_Context → vm_EVM → mapref)
  (h : InPlace.Heap) (E : PrecompiledContracts) (D : list Address).

Let builtin : slice :=
  vm_DefaultActivePrecompiles (chain_rules chainConfig blockCtx).

Context (HE :
  entries (InPlace.heap_maps h) (getPrecompilesExtended ctx
    (vm_NewEVM blockCtx txCtx stateDB chainConfig config)) = Some E).
Context (Hok : slice_ok (InPlace.heap_arrays h) builtin).
Context (HD : slice_elements (InPlace.heap_arrays h) builtin = Some D).

(** The constructor does not panic on its maps; the table is a new map
    object that holds the union of the extension mapping and of the
    built-in entries, the former taking precedence; the list is what the
    appends and the sort leave in the arrays. *)
Lemma InPlace_NewEVM_arrays :
  InPlace.NewEVM rng grow vm_DefaultActivePrecompiles ctx blockCtx txCtx
    stateDB chainConfig config getPrecompilesExtended h =
  match slice_appends grow builtin (reported (rng E))
          (InPlace.heap_arrays h) with
  | Some (s, arrays) =>
      match sort_SliceStable_in_place less s arrays with
      | Some (_, arrays') =>
          Some
            ({| InPlace.EVM_embedded :=
                  vm_NewEVM blockCtx txCtx stateDB chainConfig config;
                InPlace.precompiles :=
                  Some (fresh (dom (InPlace.heap_maps h)));
                InPlace.activePrecompiles := s |},
             {| InPlace.heap_maps :=
                  <[fresh (dom (InPlace.heap_maps h)):=
                      E ∪ DefaultPrecompiles
                            (chain_rules chainConfig blockCtx)]>
                    (InPlace.heap_maps h);
                InPlace.heap_arrays := arrays' |})
      | None => None
      end
  | None => None
  end.
Proof.
  clear Hok HD.
  destruct h as [σ arrays]. cbn [InPlace.heap_maps InPlace.heap_arrays] in *.
  unfold InPlace.NewEVM, vm_DefaultPrecompiles, map_make.
  fold (chain_rules chainConfig blockCtx).
  set (rules := chain_rules chainConfig blockCtx).
  set (base := vm_NewEVM blockCtx txCtx stateDB chainConfig config) in *.
  set (p := fresh (dom σ)).
  assert (σ !! p = None) as Hp.
  { apply not_elem_of_dom, is_fresh. }
  assert (map_range rng (getPrecompilesExtended ctx base)
            (<[p:=DefaultPrecompiles rules]> σ) =
          Some (rng E, <[p:=DefaultPrecompiles rules]> σ)) as Hrange.
  { unfold map_range. destruct (getPrecompilesExtended ctx base) as [l|].
    - simpl in HE. rewrite lookup_insert_ne by congruence.
      by rewrite HE.
    - simpl in HE. injection HE as <-. by rewrite range_order_empty. }
  unfold mbind at 1. unfold InPlace.GoHeap_bind at 1.
  unfold InPlace.on_maps at 1. cbn [InPlace.heap_maps InPlace.heap_arrays].
  cbv zeta. fold p.
  unfold mbind at 1. unfold InPlace.GoHeap_bind at 1.
  unfold InPlace.on_maps at 1. cbn [InPlace.heap_maps InPlace.heap_arrays].
  rewrite Hrange.
  unfold mbind at 1. unfold InPlace.GoHeap_bind at 1.
  rewrite (InPlace_range_customPrecompiles_run _ _ _
             (DefaultPrecompiles rules))
    by apply lookup_insert_eq.
  cbn [InPlace.heap_maps InPlace.heap_arrays].
  change (vm_DefaultActivePrecompiles rules) with builtin.
  destruct (slice_appends grow builtin (reported (rng E)) arrays)
    as [[s1 arrays1]|]; [|done].
  unfold mbind at 1. unfold InPlace.GoHeap_bind at 1.
  unfold InPlace.on_arrays at 1. cbn [InPlace.heap_maps InPlace.heap_arrays].
  destruct (sort_SliceStable_in_place less s1 arrays1)
    as [[[] arrays2]|]; [|done].
  unfold mret, InPlace.GoHeap_ret.
  rewrite insert_insert_eq.
  rewrite foldl_assign_entry by apply range_order_NoDup.
  by rewrite range_order_list_to_map.
Qed.

(** With a well-formed slice from the base VM the constructor does not
    panic; the lemma says what the arrays hold after it. *)
Lemma InPlace_NewEVM_run :
  ∃ s' arrays',
    InPlace.NewEVM rng grow vm_DefaultActivePrecompiles ctx blockCtx txCtx
      stateDB chainConfig config getPrecompilesExtended h =
    Some
      ({| InPlace.EVM_embedded :=
            vm_NewEVM blockCtx txCtx stateDB chainConfig config;
          InPlace.precompiles := Some (fresh (dom (InPlace.heap_maps h)));
          InPlace.activePrecompiles := s' |},
       {| InPlace.heap_maps :=
            <[fresh (dom (InPlace.heap_maps h)):=
                E ∪ DefaultPrecompiles (chain_rules chainConfig blockCtx)]>
              (InPlace.heap_maps h);
          InPlace.heap_arrays := arrays' |}) ∧
    slice_elements arrays' s' =
      Some (sort_SliceStable less (D ++ reported (rng E))) ∧
    slice_ok arrays' builtin ∧
    (∀ l, l ∈ dom (InPlace.heap_arrays h) → slice_array builtin ≠ Some l →
          arrays' !! l = InPlace.heap_arrays h !! l) ∧
    ((slice_len builtin + size E ≤ slice_cap builtin)%nat →
       slice_array s' = slice_array builtin ∧
       slice_elements arrays' builtin =
         Some (take (slice_len builtin)
                 (sort_SliceStable less (D ++ reported (rng E))))) ∧
    ((slice_cap builtin < slice_len builtin + size E)%nat →
       slice_elements arrays' builtin = Some D ∧
       ∃ l', slice_array s' = Some l' ∧ l' ∉ dom (InPlace.heap_arrays h)).
Proof.
  rewrite InPlace_NewEVM_arrays.
  destruct (slice_appends_spec grow (reported (rng E)) builtin
              (InPlace.heap_arrays h) D)
    as (s1 & arrays1 & Happ & Hok1 & Hs1 & Hdom1 & Hframe1 & Hokb & Hbase1
        & Hin1 & Hout1); [done..|].
  destruct (sort_SliceStable_in_place_spec less arrays1 s1 _ Hok1 Hs1)
    as (arrays2 & Hsort & Hok2 & Hdom2 & Hframe2 & Hread2).
  pose proof (slice_elements_length _ _ _ Hs1) as Hlen1.
  rewrite length_app, reported_length in Hlen1.
  pose proof (slice_elements_length _ _ _ HD) as HlenD.
  rewrite Happ, Hsort.
  exists s1, arrays2. split_and!.
  - done.
  - rewrite (Hread2 s1) by done. rewrite take_ge; [done|].
    rewrite sort_SliceStable_length, length_app, reported_length. lia.
  - by apply Hok2.
  - intros l Hl Hne. destruct (decide (slice_array s1 = Some l)) as [Hs|Hs].
    + destruct (decide (slice_len builtin + size E ≤ slice_cap builtin)%nat)
        as [Hfit|Hover].
      * destruct Hin1 as [Harr _]; [by rewrite reported_length|]. congruence.
      * destruct Hout1 as (l' & Hl' & Hnew);
          [rewrite reported_length; lia|].
        rewrite Hl' in Hs. injection Hs as ->. done.
    + rewrite Hframe2 by done. by apply Hframe1.
  - intros Hfit. destruct Hin1 as [Harr _]; [by rewrite reported_length|].
    split; [done|]. apply Hread2; [done|lia].
  - intros Hover.
    destruct Hout1 as (l' & Hl' & Hnew); [rewrite reported_length; lia|].
    split; [|by exists l'].
    rewrite <-Hbase1. apply slice_elements_frame. intros l Hl.
    apply Hframe2. rewrite Hl'. intros [= ->].
    apply Hnew. by eapply slice_ok_dom.
Qed.
End run.
End in_place_run.

Section in_place_facts.
Context {geth : GoEthereum}.


(** The constructor over slices yields what the constructor over their
    elements yields, when the slice of the base VM holds the built-in
    active list: the same table in the same store of map objects, and a
    slice that holds the list. *)
Lemma InPlace_NewEVM_elements (rng : MapRange) (grow : Growth)
    (vm_DefaultActivePrecompiles : params_Rules → slice)
    (ctx : sdk_Context) (blockCtx : vm_BlockContext) (txCtx : vm_TxContext)
    (stateDB : vm_StateDB) (chainConfig : params_ChainConfig)
    (config : vm_Config)
    (getPrecompilesExtended : sdk_Context → vm_EVM → mapref)
    (h : InPlace.Heap) (E : PrecompiledContracts) :
  entries (InPlace.heap_maps h) (getPrecompilesExtended ctx
    (vm_NewEVM blockCtx txCtx stateDB chainConfig config)) = Some E →
  slice_ok (InPlace.heap_arrays h)
    (vm_DefaultActivePrecompiles (chain_rules chainConfig blockCtx)) →
  slice_elements (InPlace.heap_arrays h)
    (vm_DefaultActivePrecompiles (chain_rules chainConfig blockCtx))
    = Some (DefaultActivePrecompiles (chain_rules chainConfig blockCtx)) →
  ∃ e h' e0,
    InPlace.NewEVM rng grow vm_DefaultActivePrecompiles ctx blockCtx txCtx
      stateDB chainConfig config getPrecompilesExtended h = Some (e, h') ∧
    NewEVM rng ctx blockCtx txCtx stateDB chainConfig config
      getPrecompilesExtended (InPlace.heap_maps h)
      = Some (e0, InPlace.heap_maps h') ∧
    InPlace.EVM_embedded e = EVM_embedded e0 ∧
    InPlace.precompiles e = precompiles e0 ∧
    slice_elements (InPlace.heap_arrays h') (InPlace.activePrecompiles e)
      = Some (activePrecompiles e0).
Proof.
  intros HE Hok HD.
  destruct (InPlace_NewEVM_run rng grow vm_DefaultActivePrecompiles ctx
              blockCtx txCtx stateDB chainConfig config
              getPrecompilesExtended h E _ HE Hok HD)
    as (s' & arrays' & Hrun & Hlist & _).
  eexists _, _, _. split; [exact Hrun|].
  split; [by apply NewEVM_run|]. done.
Qed.


(** X4. What the constructor writes into the arrays of the store. It
    writes to no array but the one behind the slice of the base VM. When
    the capacity of that slice holds the addresses of the extension, the
    list of the wrapper lives in the same array, and the slice of the base
    VM reads, after the construction, the first addresses of the sorted
    merged list in place of its own. When it does not, the list of the
    wrapper lives in a new array and the slice of the base VM reads what it
    read before. *)
Theorem NewEVM_writes_in_place
    (rng : MapRange) (grow : Growth)
    (vm_DefaultActivePrecompiles : params_Rules → slice)
    (ctx : sdk_Context) (blockCtx : vm_BlockContext) (txCtx : vm_TxContext)
    (stateDB : vm_StateDB) (chainConfig : params_ChainConfig)
    (config : vm_Config)
    (getPrecompilesExtended : sdk_Context → vm_EVM → mapref)
    (h : InPlace.Heap) (E : PrecompiledContracts) (D : list Address) :
  let builtin :=
    vm_DefaultActivePrecompiles (chain_rules chainConfig blockCtx) in
  let merged := sort_SliceStable less (D ++ reported (map_to_list E)) in
  entries (InPlace.heap_maps h) (getPrecompilesExtended ctx
    (vm_NewEVM blockCtx txCtx stateDB chainConfig config)) = Some E →
  slice_ok (InPlace.heap_arrays h) builtin →
  slice_elements (InPlace.heap_arrays h) builtin = Some D →
  ∃ e h',
    InPlace.NewEVM rng grow vm_DefaultActivePrecompiles ctx blockCtx txCtx
      stateDB chainConfig config getPrecompilesExtended h = Some (e, h') ∧
    (∀ l, l ∈ dom (InPlace.heap_arrays h) → slice_array builtin ≠ Some l →
          InPlace.heap_arrays h' !! l = InPlace.heap_arrays h !! l) ∧
    ((slice_len builtin + size E ≤ slice_cap builtin)%nat →
       slice_array (InPlace.activePrecompiles e) = slice_array builtin ∧
       slice_elements (InPlace.heap_arrays h') builtin
         = Some (take (slice_len builtin) merged)) ∧
    ((slice_cap builtin < slice_len builtin + size E)%nat →
       slice_elements (InPlace.heap_arrays h') builtin = Some D ∧
       ∃ l', slice_array (InPlace.activePrecompiles e) = Some l' ∧
             l' ∉ dom (InPlace.heap_arrays h)).
Proof.
  cbv zeta. intros HE Hok HD.
  destruct (InPlace_NewEVM_run rng grow vm_DefaultActivePrecompiles ctx
              blockCtx txCtx stateDB chainConfig config
              getPrecompilesExtended h E D HE Hok HD)
    as (s' & arrays' & Hrun & _ & _ & Hframe & Hin & Hout).
  eexists _, _. split; [exact Hrun|].
  cbn [InPlace.heap_arrays InPlace.activePrecompiles].
  split; [exact Hframe|]. split; [|exact Hout].
  intros Hfit. destruct (Hin Hfit) as [Harr Hread]. split; [done|].
  rewrite Hread. do 2 f_equal. apply active_order_irrelevant.
  by rewrite reported_Permutation.
Qed.
End in_place_facts.

Section in_place_scenarios.
Import Scenario KeptSlice.


(** With a slice that has no room left the first construction moves the
    list to a new array: the slice of the base VM reads [0x01, 0x09] after
    it as before, and the second construction yields the list of the
    first. *)
Example NewEVM_full_slice_twice :
  ∃ e1 h1 e2 h2,
    build_full in_order (heap_of E_05) = Some (e1, h1) ∧
    build_full in_order h1 = Some (e2, h2) ∧
    slice_elements (InPlace.heap_arrays h1)
      (vm_DefaultActivePrecompiles_full (chain_rules chain blockCtx))
      = Some [a01; a09] ∧
    slice_elements (InPlace.heap_arrays h1) (InPlace.activePrecompiles e1)
      = Some [a01; a05; a09] ∧
    slice_elements (InPlace.heap_arrays h2) (InPlace.activePrecompiles e2)
      = Some [a01; a05; a09].
Proof.
  destruct (InPlace_NewEVM_run in_order doubling
              vm_DefaultActivePrecompiles_full () blockCtx txCtx () chain ()
              provider (heap_of E_05) E_05 [a01; a09] eq_refl)
    as (s1 & arrays1 & Hrun1 & Hlist1 & Hok1 & _ & _ & Hout1).
  { split; [simpl; lia|]. exists [a01; a09; Address_zero].
    split; [reflexivity|simpl; lia]. }
  { reflexivity. }
  destruct Hout1 as [Hbase1 _]; [vm_compute; lia|].
  set (T := E_05 ∪ @DefaultPrecompiles base_vm
                     (@chain_rules base_vm chain blockCtx)) in *.
  set (h1 :=
    {| InPlace.heap_maps := <[fresh (dom (store_of E_05)):=T]> (store_of E_05);
       InPlace.heap_arrays := arrays1 |}
    : @InPlace.Heap base_vm).
  assert (entries (InPlace.heap_maps h1)
            (provider () (vm_NewEVM blockCtx txCtx () chain ()))
          = Some E_05) as HE2.
  { unfold entries, provider, h1. cbn [InPlace.heap_maps].
    rewrite lookup_insert_ne; [reflexivity|].
    intros Heq. pose proof (is_fresh (dom (store_of E_05))) as Hfresh.
    rewrite Heq in Hfresh. apply Hfresh, elem_of_dom. by exists E_05. }
  destruct (InPlace_NewEVM_run in_order doubling
              vm_DefaultActivePrecompiles_full () blockCtx txCtx () chain ()
              provider h1 E_05 [a01; a09] HE2 Hok1 Hbase1)
    as (s2 & arrays2 & Hrun2 & Hlist2 & _).
  eexists _, h1, _, _. split; [exact Hrun1|]. split; [exact Hrun2|].
  split; [exact Hbase1|].
  unfold h1. cbn [InPlace.heap_arrays InPlace.activePrecompiles].
  rewrite Hlist1, Hlist2. split; by vm_compute.
Qed.


(** The slice of the base VM holds [0x01, 0x09] before the construction
    and [0x01, 0x05] after it. *)
Lemma NewEVM_writes_in_place_witness :
  ∃ e h',
    build in_order (heap_of E_05) = Some (e, h') ∧
    slice_elements (InPlace.heap_arrays (heap_of E_05))
      (vm_DefaultActivePrecompiles (chain_rules chain blockCtx))
      = Some [a01; a09] ∧
    slice_elements (InPlace.heap_arrays h')
      (vm_DefaultActivePrecompiles (chain_rules chain blockCtx))
      = Some [a01; a05].
Proof.
  destruct (NewEVM_writes_in_place in_order doubling
              vm_DefaultActivePrecompiles () blockCtx txCtx () chain ()
              provider (heap_of E_05) E_05 [a01; a09])
    as (e & h' & Hrun & _ & Hin & _).
  - reflexivity.
  - split; [simpl; lia|]. exists [a01; a09; Address_zero].
    split; [reflexivity|simpl; lia].
  - reflexivity.
  - exists e, h'. split; [exact Hrun|]. split; [reflexivity|].
    destruct Hin as [_ Hread]; [vm_compute; lia|].
    rewrite Hread. by vm_compute.
Defined.
End in_place_scenarios.

(** * Properties of the helpers of [app/utils.go] *)

(** ** Slices *)

Lemma slice_update_middle {A} (f : A → A) (front : list A) x rest :
  slice_update (length front) f (front ++ x :: rest)
  = Returns (front ++ f x :: rest).
Proof.
  unfold slice_update. rewrite list_lookup_middle by done.
  by rewrite insert_app_r_alt, Nat.sub_diag by done.
Qed.

Lemma slice_index_middle {A} (front : list A) x rest :
  slice_index (length front) (front ++ x :: rest) = Returns x.
Proof. unfold slice_index. by rewrite list_lookup_middle. Qed.

Section helper_facts.
Context `{codecs : Codecs}.

(** ** [RandomGenesisAccounts] *)

Lemma RandomGenesisAccounts_range_run emptyCodeHash accounts front :
  RandomGenesisAccounts_range emptyCodeHash (length front) accounts
    (front ++ replicate (length accounts) None)
  = Returns
      (front ++
       ((λ acc,
           Some (GenesisAccount_eth
                   {| EthAccount_BaseAccount :=
                        authtypes_NewBaseAccountWithAddress
                          (Account_Address acc);
                      EthAccount_CodeHash :=
                        Hash_String (BytesToHash emptyCodeHash) |}))
        <$> accounts)).
Proof.
  revert front. induction accounts as [|acc accounts IH]; intros front.
  { simpl. by rewrite !(right_id_L [] (++)). }
  cbn [RandomGenesisAccounts_range length replicate].
  rewrite slice_update_middle. unfold mbind, outcome_bind.
  rewrite fmap_cons, !cons_middle, !(assoc_L (++)).
  rewrite <-(IH (front ++ [_])). f_equal. by rewrite length_app, Nat.add_1_r.
Qed.

(** X6. [RandomGenesisAccounts] panics on a [nil] simulation state, when
    it reads [simState.Accounts]. On any other it does not panic: it
    returns one account for each account of the simulation, in the same
    order and none of them [nil]; each is an [EthAccount] over a base
    account with the address of the simulation account, and its code hash
    is the hash of the empty code. *)
Theorem RandomGenesisAccounts_accounts :
  RandomGenesisAccounts None = Panics panic_nil_dereference ∧
  ∀ simState,
    RandomGenesisAccounts (Some simState)
    = Returns
        ((λ acc,
            Some (GenesisAccount_eth
                    {| EthAccount_BaseAccount :=
                         authtypes_NewBaseAccountWithAddress
                           (Account_Address acc);
                       EthAccount_CodeHash :=
                         Hash_String (BytesToHash (crypto_Keccak256 [])) |}))
         <$> SimulationState_Accounts simState).
Proof.
  split; [done|]. intros simState. unfold RandomGenesisAccounts.
  cbn [deref]. unfold mbind, outcome_bind.
  apply (RandomGenesisAccounts_range_run _ _ []).
Qed.

(** ** [RandomAccounts] *)

Lemma RandomAccounts_body_run front rest r :
  RandomAccounts_body (length front) (front ++ Account_zero :: rest) (Some r)
  = Returns (front ++ account_of_seed (Rand_Read r 15).1 :: rest,
             Some (Rand_Read r 15).2).
Proof.
  unfold RandomAccounts_body. simpl deref.
  unfold mbind at 1, outcome_bind at 1.
  destruct (Rand_Read r 15) as [seed r'].
  rewrite slice_update_middle. unfold mbind at 1, outcome_bind at 1.
  rewrite slice_index_middle. unfold mbind at 1, outcome_bind at 1.
  simpl deref. unfold mbind at 1, outcome_bind at 1.
  rewrite slice_update_middle. unfold mbind at 1, outcome_bind at 1.
  rewrite slice_index_middle. unfold mbind at 1, outcome_bind at 1.
  simpl deref. unfold mbind at 1, outcome_bind at 1.
  rewrite slice_update_middle. unfold mbind at 1, outcome_bind at 1.
  rewrite slice_update_middle. unfold mbind at 1, outcome_bind at 1.
  done.
Qed.

Lemma RandomAccounts_loop_run steps front rest r :
  RandomAccounts_loop steps (length front)
    (front ++ replicate steps Account_zero ++ rest) (Some r)
  = Returns (front ++ (account_of_seed <$> (read_seeds steps r).1) ++ rest,
             Some (read_seeds steps r).2).
Proof.
  revert front r. induction steps as [|steps IH]; intros front r; [done|].
  cbn [RandomAccounts_loop replicate read_seeds].
  rewrite <-app_comm_cons, RandomAccounts_body_run.
  unfold mbind at 1, outcome_bind at 1.
  destruct (Rand_Read r 15) as [seed r1]. cbn [fst snd].
  specialize (IH (front ++ [account_of_seed seed]) r1).
  rewrite length_app, Nat.add_1_r, <-!(assoc_L (++)) in IH.
  cbn [app] in IH. rewrite IH.
  by destruct (read_seeds steps r1) as [seeds r2].
Qed.

Lemma read_seeds_length k r : length (read_seeds k r).1 = k.
Proof.
  revert r. induction k as [|k IH]; intros r; [done|]. simpl.
  destruct (Rand_Read r 15) as [seed r1]. specialize (IH r1).
  destruct (read_seeds k r1). simpl in *. by rewrite IH.
Qed.

Lemma read_seeds_add k1 k2 r :
  read_seeds (k1 + k2) r
  = ((read_seeds k1 r).1 ++ (read_seeds k2 (read_seeds k1 r).2).1,
     (read_seeds k2 (read_seeds k1 r).2).2).
Proof.
  revert r. induction k1 as [|k1 IH]; intros r.
  { simpl. by destruct (read_seeds k2 r). }
  simpl. destruct (Rand_Read r 15) as [seed r1]. rewrite IH.
  destruct (read_seeds k1 r1) as [seeds1 r2]. simpl.
  by destruct (read_seeds k2 r2).
Qed.

Lemma RandomAccounts_run r n :
  0 ≤ n ≤ makeslice_max_Account →
  RandomAccounts (Some r) n
  = Returns (account_of_seed <$> (read_seeds (Z.to_nat n) r).1,
             Some (read_seeds (Z.to_nat n) r).2).
Proof.
  intros Hn. unfold RandomAccounts. rewrite decide_False by lia.
  pose proof (RandomAccounts_loop_run (Z.to_nat n) [] [] r) as Hrun.
  by rewrite !(right_id_L [] (++)) in Hrun.
Qed.

Lemma RandomAccounts_nil n :
  0 ≤ n ≤ makeslice_max_Account →
  RandomAccounts None n
  = if decide (n = 0) then Returns ([], None)
    else Panics panic_nil_dereference.
Proof.
  intros Hn. unfold RandomAccounts. rewrite decide_False by lia.
  case_decide as Hzero; [by subst|].
  destruct (Z.to_nat n) as [|k] eqn:Hk; [lia|done].
Qed.

(** X7. [RandomAccounts] panics in [make], before anything is read from
    the generator, when [n] is negative or beyond the largest length that
    the runtime allows. For [n] within these bounds and a generator that
    is not [nil] it does not panic and returns [n] accounts; it reads
    fifteen bytes from the generator for each, in order, and every account
    has its four fields set from its seed: the public key is the one of
    its private key, the address the one of its public key, and the
    consensus key comes from the same seed as the private key. With a
    [nil] generator it panics at the first read, unless no account is
    asked for. *)
Theorem RandomAccounts_accounts (r : rand_Rand) n :
  (n < 0 ∨ makeslice_max_Account < n →
   RandomAccounts (Some r) n = Panics panic_makeslice ∧
   RandomAccounts None n = Panics panic_makeslice) ∧
  (0 < n ≤ makeslice_max_Account →
   RandomAccounts None n = Panics panic_nil_dereference) ∧
  RandomAccounts None 0 = Returns ([], None) ∧
  (0 ≤ n ≤ makeslice_max_Account →
   ∃ accs r',
     RandomAccounts (Some r) n = Returns (accs, Some r') ∧
     Z.of_nat (length accs) = n ∧
     r' = (read_seeds (Z.to_nat n) r).2 ∧
     accs = account_of_seed <$> (read_seeds (Z.to_nat n) r).1 ∧
     ∀ acc, acc ∈ accs →
       ∃ seed privKey pubKey,
         Account_PrivKey acc = Some privKey ∧
         privKey = ethsecp256k1_UnmarshalAmino
                     (secp256k1_PrivKey_Bytes
                        (secp256k1_GenPrivKeyFromSecret seed)) ∧
         Account_PubKey acc = Some pubKey ∧
         pubKey = ethsecp256k1_PrivKey_PubKey privKey ∧
         Account_Address acc = PubKey_Address pubKey ∧
         Account_ConsKey acc = Some (ed25519_GenPrivKeyFromSecret seed)).
Proof.
  split_and!.
  - intros Hn. unfold RandomAccounts. rewrite !decide_True by done. done.
  - intros Hn. rewrite RandomAccounts_nil by lia.
    by rewrite decide_False by lia.
  - pose proof makeslice_max_Account_range.
    by rewrite RandomAccounts_nil by lia.
  - intros Hn. eexists _, _. split; [by apply RandomAccounts_run|].
    split; [|split; [done|split; [done|]]].
    { rewrite length_fmap, read_seeds_length. lia. }
    intros acc (seed & -> & _)%list_elem_of_fmap.
    eexists seed, _, _. unfold account_of_seed. simpl. eauto 10.
Qed.

(** X8. Asking for more accounts extends the list, as long as [make]
    allows the total: the accounts for [n + m] are the accounts for [n]
    followed by the accounts for [m] drawn from the generator as the first
    call leaves it. *)
Theorem RandomAccounts_append r n m accs1 r1 accs2 r2 :
  0 ≤ n → 0 ≤ m → n + m ≤ makeslice_max_Account →
  RandomAccounts r n = Returns (accs1, r1) →
  RandomAccounts r1 m = Returns (accs2, r2) →
  RandomAccounts r (n + m) = Returns (accs1 ++ accs2, r2).
Proof.
  intros Hn Hm Hmax. destruct r as [r|].
  - rewrite !RandomAccounts_run by lia. intros [= <- <-].
    rewrite RandomAccounts_run by lia. intros [= <- <-].
    rewrite Z2Nat.inj_add, read_seeds_add by lia. cbn [fst snd].
    by rewrite fmap_app.
  - rewrite !RandomAccounts_nil by lia.
    destruct (decide (n = 0)) as [->|]; [|done]. intros [= <- <-].
    rewrite RandomAccounts_nil by lia.
    destruct (decide (m = 0)) as [->|]; [|done]. by intros [= <- <-].
Qed.

(** ** The callbacks of [StateFn] *)

Lemma StateFn_moduleStateCb_calls_app calls1 calls2 bondDenom :
  StateFn_moduleStateCb_calls (calls1 ++ calls2) bondDenom
  = StateFn_moduleStateCb_calls calls1 bondDenom
    ≫= StateFn_moduleStateCb_calls calls2.
Proof.
  revert bondDenom.
  induction calls1 as [|[name st] calls1 IH]; intros bondDenom; [done|].
  cbn [app StateFn_moduleStateCb_calls].
  destruct (StateFn_moduleStateCb name st bondDenom) as [d|p]; [|done].
  apply IH.
Qed.

(** X9. Over any sequence of calls of the callback for the modules, if
    none panics, the variable [bondDenom] ends as the bond denomination of
    the last staking state handed over; it keeps its value, the empty
    string at first, when there is none. A call for a module of another
    name does not change it. *)
Theorem StateFn_moduleStateCb_last_staking calls bondDenom bondDenom' :
  StateFn_moduleStateCb_calls calls bondDenom = Returns bondDenom' →
  bondDenom' = default bondDenom (last (bond_denoms calls)).
Proof.
  revert bondDenom.
  induction calls as [|[name st] calls IH]; intros bondDenom.
  { by intros [= <-]. }
  cbn [StateFn_moduleStateCb_calls]. unfold StateFn_moduleStateCb.
  unfold bond_denoms. cbn [omap list_omap fst snd]. fold (bond_denoms calls).
  destruct (decide (name = stakingtypes_ModuleName)) as [->|Hname].
  - destruct st as [g|g]; [|done]. intros Hcalls%IH.
    rewrite last_cons. by destruct (last (bond_denoms calls)).
  - apply IH.
Qed.

(** What a run of the callback for the raw state that returns has done. *)
Lemma StateFn_rawStateCb_inv cdc bondDenom rawState rawState' :
  StateFn_rawStateCb cdc bondDenom rawState = Returns rawState' →
  ∃ m evmStateBz evmState bz,
    rawState = Some m ∧
    m !! evmtypes_ModuleName = Some evmStateBz ∧
    Codec_UnmarshalJSON_evm cdc evmStateBz = inr evmState ∧
    Codec_MarshalJSON cdc
      (Message_evm (set_EvmDenom bondDenom evmState)) = inr bz ∧
    rawState' = Some (<[evmtypes_ModuleName:=bz]> m).
Proof.
  unfold StateFn_rawStateCb.
  destruct (rawmap_index rawState evmtypes_ModuleName)
    as [evmStateBz|] eqn:Hevm; [|done].
  destruct (Codec_UnmarshalJSON_evm cdc evmStateBz)
    as [err|evmState] eqn:Hdecode; [done|].
  cbn [must mbind outcome_bind].
  destruct (Codec_MarshalJSON cdc _) as [err|bz] eqn:Hencode; [done|].
  cbn [must mbind outcome_bind].
  destruct rawState as [m|]; [|done]. intros [= <-].
  by exists m, evmStateBz, evmState, bz.
Qed.

(** X10. The callback for the raw state panics with the message
    [evm genesis state is missing] when the map has no entry for the EVM
    module. When it returns, the map had such an entry, which decodes, and
    the entry is replaced by the encoding of the decoded state with its
    denomination set to [bondDenom]; no other entry changes. *)
Theorem StateFn_rawStateCb_only_evm cdc bondDenom rawState :
  (rawmap_index rawState evmtypes_ModuleName = None →
   StateFn_rawStateCb cdc bondDenom rawState
   = Panics (panic_message "evm genesis state is missing")) ∧
  (∀ rawState',
     StateFn_rawStateCb cdc bondDenom rawState = Returns rawState' →
     ∃ evmStateBz evmState bz,
       rawmap_index rawState evmtypes_ModuleName = Some evmStateBz ∧
       Codec_UnmarshalJSON_evm cdc evmStateBz = inr evmState ∧
       Codec_MarshalJSON cdc
         (Message_evm (set_EvmDenom bondDenom evmState)) = inr bz ∧
       rawmap_index rawState' evmtypes_ModuleName = Some bz ∧
       ∀ k, k ≠ evmtypes_ModuleName →
            rawmap_index rawState' k = rawmap_index rawState k).
Proof.
  split.
  { unfold StateFn_rawStateCb. by intros ->. }
  intros rawState'
    (m & evmStateBz & evmState & bz & -> & Hevm & Hdecode & Hencode & ->)
    %StateFn_rawStateCb_inv.
  exists evmStateBz, evmState, bz. split_and!; try done.
  - apply lookup_insert_eq.
  - intros k Hk. simpl. by rewrite lookup_insert_ne.
Qed.

(** X11. With a codec that decodes what it encodes, after the callback for
    the modules has seen a staking state and the callback for the raw
    state has returned, the entry of the EVM module decodes to the state
    that was there, with its denomination replaced by the bond denomination
    of the staking state. *)
Theorem StateFn_evm_denom_is_bond_denom cdc stakingState bondDenom0
    bondDenom rawState rawState' :
  (∀ g bz,
     Codec_MarshalJSON cdc (Message_evm g) = inr bz →
     Codec_UnmarshalJSON_evm cdc bz = inr g) →
  StateFn_moduleStateCb stakingtypes_ModuleName
    (state_staking stakingState) bondDenom0 = Returns bondDenom →
  StateFn_rawStateCb cdc bondDenom rawState = Returns rawState' →
  ∃ evmStateBz evmState bz evmState',
    rawmap_index rawState evmtypes_ModuleName = Some evmStateBz ∧
    Codec_UnmarshalJSON_evm cdc evmStateBz = inr evmState ∧
    rawmap_index rawState' evmtypes_ModuleName = Some bz ∧
    Codec_UnmarshalJSON_evm cdc bz = inr evmState' ∧
    EvmDenom (evm_Params evmState')
      = BondDenom (staking_Params stakingState) ∧
    evmtypes_Params_rest (evm_Params evmState')
      = evmtypes_Params_rest (evm_Params evmState) ∧
    evm_Accounts evmState' = evm_Accounts evmState.
Proof.
  intros Hcodec Hmodule Hraw.
  unfold StateFn_moduleStateCb in Hmodule.
  rewrite decide_True in Hmodule by done. injection Hmodule as <-.
  apply StateFn_rawStateCb_inv in Hraw
    as (m & evmStateBz & evmState & bz & -> & Hevm & Hdecode & Hencode & ->).
  exists evmStateBz, evmState, bz,
    (set_EvmDenom (BondDenom (staking_Params stakingState)) evmState).
  split_and!; [done|done|apply lookup_insert_eq|by apply Hcodec|done..].
Qed.

(** ** [genesisStateWithValSet] *)

Lemma genesisStateWithValSet_range_inv vals genAccs bondAmt validators
    delegations validators' delegations' :
  genesisStateWithValSet_range vals genAccs bondAmt validators delegations
    = Returns (validators', delegations') →
  bondAmt = sdk_DefaultPowerReduction →
  ∃ new_validators,
    validators' = validators ++ new_validators ∧
    Forall2 bonded_validator vals new_validators ∧
    match genAccs with
    | [] => vals = [] ∧ delegations' = delegations
    | genAcc :: _ =>
        delegations' =
          delegations ++
          ((λ val,
              stakingtypes_NewDelegation (GenesisAccount_GetAddress genAcc)
                (Validator_Address val) sdk_OneDec) <$> vals)
    end.
Proof.
  intros Hrun ->. revert validators delegations Hrun.
  induction vals as [|val vals IH]; intros validators delegations.
  { intros [= <- <-]. exists []. rewrite !(right_id_L [] (++)).
    split; [done|]. split; [constructor|].
    destruct genAccs; [done|]. by rewrite fmap_nil, (right_id_L [] (++)). }
  cbn [genesisStateWithValSet_range].
  destruct (cryptocodec_FromTmPubKeyInterface (Validator_PubKey val))
    as [err|pk] eqn:Hpk; [done|].
  cbn [must mbind outcome_bind].
  destruct (codectypes_NewAnyWithValue pk) as [err|pkAny] eqn:Hany; [done|].
  cbn [must mbind outcome_bind].
  destruct genAccs as [|genAcc genAccs]; [done|].
  cbn [slice_index lookup list_lookup mbind outcome_bind].
  intros (new_validators & -> & Hnew & ->)%IH.
  eexists (_ :: new_validators). rewrite <-!(assoc_L (++)).
  split; [done|]. split; [|by rewrite fmap_cons].
  constructor; [|done]. repeat split; try done. by exists pk.
Qed.

(** What a successful run has done. *)
Lemma genesisStateWithValSet_inv codec genesisState valSet genAccs balances
    genesisState' :
  genesisStateWithValSet codec genesisState valSet genAccs balances
    = Returns genesisState' →
  ∃ m bzAuth validators delegations bzStaking bzBank,
    genesisState = Some m ∧
    Codec_MarshalJSON codec
      (Message_auth {| auth_Params := authtypes_DefaultParams;
                       auth_Accounts := genAccs |}) = inr bzAuth ∧
    genesisStateWithValSet_range (ValidatorSet_Validators valSet) genAccs
      sdk_DefaultPowerReduction [] [] = Returns (validators, delegations) ∧
    Codec_MarshalJSON codec
      (Message_staking {| staking_Params := stakingtypes_DefaultParams;
                          staking_Validators := validators;
                          staking_Delegations := delegations |})
      = inr bzStaking ∧
    Codec_MarshalJSON codec
      (Message_bank
         {| bank_Params := banktypes_DefaultParams;
            bank_Balances := balances ++ [bonded_pool_balance];
            bank_Supply :=
              foldl (λ total _, Coins_Add total [bond_coin])
                (balances_total balances) delegations;
            bank_DenomMetadata := [];
            bank_SendEnabled := [] |}) = inr bzBank ∧
    genesisState' =
      Some (<[banktypes_ModuleName:=bzBank]>
              (<[stakingtypes_ModuleName:=bzStaking]>
                 (<[authtypes_ModuleName:=bzAuth]> m))).
Proof.
  unfold genesisStateWithValSet.
  destruct (Codec_MarshalJSON codec (Message_auth _))
    as [err|bzAuth] eqn:Hauth; [done|].
  cbn [must mbind outcome_bind].
  destruct genesisState as [m|]; [|done].
  cbn [rawmap_assign mbind outcome_bind].
  destruct (genesisStateWithValSet_range _ _ _ _ _)
    as [[validators delegations]|p] eqn:Hrange; [|done].
  cbn [mbind outcome_bind].
  destruct (Codec_MarshalJSON codec (Message_staking _))
    as [err|bzStaking] eqn:Hstaking; [done|].
  cbn [must mbind outcome_bind rawmap_assign].
  destruct (Codec_MarshalJSON codec (Message_bank _))
    as [err|bzBank] eqn:Hbank; [done|].
  cbn [must mbind outcome_bind rawmap_assign].
  intros [= <-].
  by exists m, bzAuth, validators, delegations, bzStaking, bzBank.
Qed.

(** X12. With no genesis account and at least one validator,
    [genesisStateWithValSet] never returns: the delegation of the first
    validator reads [genAccs[0]]. The panic is the one of the index when
    the map is not [nil] and the codec and the conversions of the key of
    that validator succeed. *)
Theorem genesisStateWithValSet_no_account codec genesisState valSet
    balances val vals :
  ValidatorSet_Validators valSet = val :: vals →
  (∃ p, genesisStateWithValSet codec genesisState valSet [] balances
        = Panics p) ∧
  (∀ m bz pk pkAny,
     genesisState = Some m →
     Codec_MarshalJSON codec
       (Message_auth {| auth_Params := authtypes_DefaultParams;
                        auth_Accounts := [] |}) = inr bz →
     cryptocodec_FromTmPubKeyInterface (Validator_PubKey val) = inr pk →
     codectypes_NewAnyWithValue pk = inr pkAny →
     genesisStateWithValSet codec genesisState valSet [] balances
     = Panics panic_index).
Proof.
  intros Hvals. split.
  - destruct (genesisStateWithValSet codec genesisState valSet [] balances)
      as [genesisState'|p] eqn:Hrun; [|by exists p].
    apply genesisStateWithValSet_inv in Hrun
      as (m & bzAuth & validators & delegations & _ & _ & _ & _ & Hrange
          & _).
    apply genesisStateWithValSet_range_inv in Hrange
      as (_ & _ & _ & Hnil & _); [|done].
    by rewrite Hvals in Hnil.
  - intros m bz pk pkAny -> Hauth Hpk Hany.
    unfold genesisStateWithValSet. rewrite Hauth, Hvals.
    cbn [must mbind outcome_bind rawmap_assign genesisStateWithValSet_range].
    rewrite Hpk. cbn [must mbind outcome_bind]. by rewrite Hany.
Qed.

(** X13. When [genesisStateWithValSet] returns, the map was not [nil]; the
    map returned has an entry for each of the auth, staking and bank
    modules, and every entry of another module is as it was. *)
Theorem genesisStateWithValSet_other_modules codec genesisState valSet
    genAccs balances genesisState' :
  genesisStateWithValSet codec genesisState valSet genAccs balances
    = Returns genesisState' →
  ∃ m m',
    genesisState = Some m ∧ genesisState' = Some m' ∧
    is_Some (m' !! authtypes_ModuleName) ∧
    is_Some (m' !! stakingtypes_ModuleName) ∧
    is_Some (m' !! banktypes_ModuleName) ∧
    ∀ k,
      k ≠ authtypes_ModuleName → k ≠ stakingtypes_ModuleName →
      k ≠ banktypes_ModuleName →
      m' !! k = m !! k.
Proof.
  intros (m & bzAuth & validators & delegations & bzStaking & bzBank & ->
          & _ & _ & _ & _ & ->)%genesisStateWithValSet_inv.
  eexists m, _. split; [done|]. split; [done|].
  rewrite !lookup_insert_is_Some'. split_and!; try tauto.
  intros k ???. by rewrite !lookup_insert_ne.
Qed.

(** X14. When [genesisStateWithValSet] returns, the entry of the staking
    module encodes a genesis state with one validator and one delegation
    for each validator of the set, in order: the validator is bonded, not
    jailed, with the tokens of the power reduction and the operator address
    of the validator of the set; the delegation is from the first genesis
    account to that validator, for one share. *)
Theorem genesisStateWithValSet_staking codec genesisState valSet genAccs
    balances genesisState' :
  stakingtypes_ModuleName ≠ banktypes_ModuleName →
  genesisStateWithValSet codec genesisState valSet genAccs balances
    = Returns genesisState' →
  ∃ stakingGenesis bz,
    rawmap_index genesisState' stakingtypes_ModuleName = Some bz ∧
    Codec_MarshalJSON codec (Message_staking stakingGenesis) = inr bz ∧
    staking_Params stakingGenesis = stakingtypes_DefaultParams ∧
    Forall2 bonded_validator (ValidatorSet_Validators valSet)
      (staking_Validators stakingGenesis) ∧
    length (staking_Delegations stakingGenesis)
      = length (ValidatorSet_Validators valSet) ∧
    ∀ genAcc,
      head genAccs = Some genAcc →
      staking_Delegations stakingGenesis =
        (λ val,
           stakingtypes_NewDelegation (GenesisAccount_GetAddress genAcc)
             (Validator_Address val) sdk_OneDec)
        <$> ValidatorSet_Validators valSet.
Proof.
  intros Hnames
    (m & bzAuth & validators & delegations & bzStaking & bzBank & ->
     & _ & Hrange & Hstaking & _ & ->)%genesisStateWithValSet_inv.
  apply genesisStateWithValSet_range_inv in Hrange
    as (new_validators & -> & Hvalidators & Hdelegations); [|done].
  eexists _, bzStaking. split.
  { simpl. rewrite lookup_insert_ne by done. apply lookup_insert_eq. }
  split; [exact Hstaking|]. split; [done|]. split; [done|].
  cbn [staking_Delegations]. destruct genAccs as [|genAcc genAccs].
  - destruct Hdelegations as [-> ->]. by split.
  - cbn [app] in Hdelegations. subst delegations.
    split; [by rewrite length_fmap|]. by intros ? [= <-].
Qed.

Lemma foldl_const_iter {A B} (f : A → A) (a : A) (l : list B) :
  foldl (λ x _, f x) a l = Nat.iter (length l) f a.
Proof.
  revert a. induction l as [|b l IH]; intros a; [done|].
  simpl. rewrite IH. clear IH.
  induction (length l) as [|k IH]; [done|]. simpl. by rewrite IH.
Qed.

Lemma genesisStateWithValSet_range_length vals genAccs bondAmt validators
    delegations validators' delegations' :
  genesisStateWithValSet_range vals genAccs bondAmt validators delegations
    = Returns (validators', delegations') →
  length delegations' = (length delegations + length vals)%nat.
Proof.
  revert validators delegations.
  induction vals as [|val vals IH]; intros validators delegations.
  { intros [= <- <-]. simpl. lia. }
  cbn [genesisStateWithValSet_range].
  destruct (cryptocodec_FromTmPubKeyInterface _); [done|].
  cbn [must mbind outcome_bind].
  destruct (codectypes_NewAnyWithValue _); [done|].
  cbn [must mbind outcome_bind].
  destruct (slice_index 0 genAccs); [|done]. cbn [mbind outcome_bind].
  intros ->%IH. rewrite length_app. simpl. lia.
Qed.

(** The supply after the two loops over the balances and the
    delegations. *)
Lemma bank_supply_loops (balances : list banktypes_Balance)
    (delegations : list stakingtypes_Delegation) n :
  length delegations = n →
  foldl (λ total _, Coins_Add total [bond_coin]) (balances_total balances)
    delegations
  = Nat.iter n (λ total, Coins_Add total [bond_coin])
      (balances_total balances) ∧
  (n = 1%nat →
   foldl (λ total _, Coins_Add total [bond_coin]) (balances_total balances)
     delegations
   = balances_total (balances ++ [bonded_pool_balance])).
Proof.
  intros <-. rewrite foldl_const_iter. split; [done|].
  intros ->. unfold balances_total. by rewrite foldl_app.
Qed.

(** X15. When [genesisStateWithValSet] returns, the entry of the bank
    module encodes a genesis state whose balances are the given ones
    followed by the one of the bonded pool, which holds the bond coin once,
    and whose supply is the total of the given balances with the bond coin
    added once for each validator of the set. With exactly one validator
    the supply is the total of the balances of the state. *)
Theorem genesisStateWithValSet_bank codec genesisState valSet genAccs
    balances genesisState' :
  genesisStateWithValSet codec genesisState valSet genAccs balances
    = Returns genesisState' →
  ∃ bankGenesis bz,
    rawmap_index genesisState' banktypes_ModuleName = Some bz ∧
    Codec_MarshalJSON codec (Message_bank bankGenesis) = inr bz ∧
    bank_Balances bankGenesis = balances ++ [bonded_pool_balance] ∧
    bank_Supply bankGenesis =
      Nat.iter (length (ValidatorSet_Validators valSet))
        (λ total, Coins_Add total [bond_coin]) (balances_total balances) ∧
    (length (ValidatorSet_Validators valSet) = 1%nat →
     bank_Supply bankGenesis = balances_total (bank_Balances bankGenesis)).
Proof.
  intros (m & bzAuth & validators & delegations & bzStaking & bzBank & ->
          & _ & Hrange & _ & Hbank & ->)%genesisStateWithValSet_inv.
  apply genesisStateWithValSet_range_length in Hrange. simpl in Hrange.
  destruct (bank_supply_loops balances delegations _ Hrange)
    as [Hsupply Hone].
  eexists _, bzBank. split; [apply lookup_insert_eq|]. split; [done|].
  cbn [bank_Balances bank_Supply]. by split_and!.
Qed.

(** ** [NewTestGenesisState] *)

Lemma genesisStateWithValSet_range_no_index vals genAcc genAccs bondAmt
    validators delegations :
  genesisStateWithValSet_range vals (genAcc :: genAccs) bondAmt validators
    delegations ≠ Panics panic_index.
Proof.
  revert validators delegations.
  induction vals as [|val vals IH]; intros validators delegations; [done|].
  cbn [genesisStateWithValSet_range].
  destruct (cryptocodec_FromTmPubKeyInterface _); [done|].
  cbn [must mbind outcome_bind].
  destruct (codectypes_NewAnyWithValue _); [done|].
  cbn [must mbind outcome_bind slice_index lookup list_lookup]. apply IH.
Qed.

(** X17. [NewTestGenesisState] never panics on an index: it hands one
    genesis account over. When the validator set made of its validator has
    that one validator and it returns, the entry of the bank module
    encodes a state with two balances, the one of the sender and the one of
    the bonded pool, and a supply that is their total. *)
Theorem NewTestGenesisState_supply privVal senderPrivKey codec :
  NewTestGenesisState privVal senderPrivKey codec ≠ Panics panic_index ∧
  ∀ pubKey genesisState',
    PV_GetPubKey privVal = inr pubKey →
    length (ValidatorSet_Validators
              (tmtypes_NewValidatorSet
                 [{| Validator_Address := tmcrypto_PubKey_Address pubKey;
                     Validator_PubKey := pubKey;
                     Validator_VotingPower := 1;
                     Validator_ProposerPriority := 0 |}])) = 1%nat →
    NewTestGenesisState privVal senderPrivKey codec = Returns genesisState' →
    ∃ bankGenesis bz sender,
      rawmap_index genesisState' banktypes_ModuleName = Some bz ∧
      Codec_MarshalJSON codec (Message_bank bankGenesis) = inr bz ∧
      bank_Balances bankGenesis = [sender; bonded_pool_balance] ∧
      Balance_Coins sender =
        sdk_NewCoins [sdk_NewCoin sdk_DefaultBondDenom 100000000000000] ∧
      bank_Supply bankGenesis = balances_total (bank_Balances bankGenesis).
Proof.
  unfold NewTestGenesisState. split.
  - destruct (PV_GetPubKey privVal) as [err|pubKey]; [done|].
    cbn [must mbind outcome_bind]. unfold genesisStateWithValSet.
    destruct (Codec_MarshalJSON codec (Message_auth _)); [done|].
    cbn [must mbind outcome_bind].
    destruct NewDefaultGenesisState; [|done].
    cbn [rawmap_assign mbind outcome_bind].
    destruct (genesisStateWithValSet_range _ _ _ _ _)
      as [[validators delegations]|p] eqn:Hrange.
    + cbn [mbind outcome_bind].
      destruct (Codec_MarshalJSON codec (Message_staking _)); [done|].
      cbn [must mbind outcome_bind rawmap_assign].
      by destruct (Codec_MarshalJSON codec (Message_bank _)).
    + cbn [mbind outcome_bind]. intros [= ->].
      by apply genesisStateWithValSet_range_no_index in Hrange.
  - intros pubKey genesisState' -> Hone.
    cbn [must mbind outcome_bind].
    intros (m & bzAuth & validators & delegations & bzStaking & bzBank & _
            & _ & Hrange & _ & Hbank & ->)%genesisStateWithValSet_inv.
    apply genesisStateWithValSet_range_length in Hrange.
    rewrite Hone in Hrange. simpl in Hrange.
    eapply bank_supply_loops in Hrange as [_ Hsupply].
    eexists _, bzBank, _. split; [apply lookup_insert_eq|].
    split; [exact Hbank|]. cbn [bank_Balances bank_Supply].
    split; [done|]. split; [done|]. by apply Hsupply.
Qed.
End helper_facts.

(** ** The set-up of an application *)

Section setup_facts.
Context `{application : Application}.

(** What a run of [SetupWithDBAndOpts] that returns has done. *)
Lemma SetupWithDBAndOpts_inv privVal senderPrivKey isCheckTx patch db
    appOptions app opts :
  SetupWithDBAndOpts privVal senderPrivKey isCheckTx patch db appOptions
    = Returns (app, opts) →
  opts =
    <[flags_FlagHome:=value_string DefaultNodeHome]>
      (<[server_FlagInvCheckPeriod:=value_int 5]> (default ∅ appOptions)) ∧
  (isCheckTx = true → app = NewEthermintApp db true opts ChainID) ∧
  (isCheckTx = false →
   ∃ stateBytes,
     app =
       EthermintApp_InitChain (NewEthermintApp db true opts ChainID)
         {| RequestInitChain_ChainId := ChainID;
            RequestInitChain_Validators := [];
            RequestInitChain_ConsensusParams := DefaultConsensusParams;
            RequestInitChain_AppStateBytes := stateBytes |}).
Proof.
  unfold SetupWithDBAndOpts.
  replace (match appOptions with Some e => e | None => ∅ end)
    with (default ∅ appOptions) by by destruct appOptions.
  intros Hrun. destruct isCheckTx; simpl in Hrun.
  { injection Hrun as <- <-. by split_and!. }
  destruct (NewTestGenesisState _ _ _) as [genesisState|p]; [|done].
  cbn [mbind outcome_bind] in Hrun.
  destruct (json_MarshalIndent _ _ _) as [err|stateBytes]; [done|].
  cbn [must mbind outcome_bind] in Hrun. injection Hrun as <- <-.
  split_and!; [done|done|]. intros _. by exists stateBytes.
Qed.

(** X18. When [SetupWithDBAndOpts] returns, the options that the
    application was made with hold the default home of the node under the
    home flag and 5 under the flag of the invariant check period, whatever
    the caller had there; every other option is the one of the caller, and
    there is none if the caller gave [nil]. The application is the one made
    with these options, the database of the caller and the chain
    identifier; unless [isCheckTx] is set, its chain is initialised with
    this chain identifier, no validator update and the default consensus
    parameters. *)
Theorem SetupWithDBAndOpts_options privVal senderPrivKey isCheckTx patch db
    appOptions app opts :
  SetupWithDBAndOpts privVal senderPrivKey isCheckTx patch db appOptions
    = Returns (app, opts) →
  opts !! flags_FlagHome = Some (value_string DefaultNodeHome) ∧
  (server_FlagInvCheckPeriod ≠ flags_FlagHome →
   opts !! server_FlagInvCheckPeriod = Some (value_int 5)) ∧
  (∀ k,
     k ≠ server_FlagInvCheckPeriod → k ≠ flags_FlagHome →
     opts !! k = default ∅ appOptions !! k) ∧
  (isCheckTx = true → app = NewEthermintApp db true opts ChainID) ∧
  (isCheckTx = false →
   ∃ stateBytes,
     app =
       EthermintApp_InitChain (NewEthermintApp db true opts ChainID)
         {| RequestInitChain_ChainId := ChainID;
            RequestInitChain_Validators := [];
            RequestInitChain_ConsensusParams := DefaultConsensusParams;
            RequestInitChain_AppStateBytes := stateBytes |}).
Proof.
  intros (Hopts & Hcheck & Hdeliver)%SetupWithDBAndOpts_inv.
  split_and!; [| | |done|done]; rewrite Hopts.
  - apply lookup_insert_eq.
  - intros Hflags. rewrite lookup_insert_ne by done. apply lookup_insert_eq.
  - intros k Hinv Hhome. by rewrite !lookup_insert_ne by done.
Qed.

(** X19. [Setup] and [SetupWithDB] hand [nil] options on: when they
    return, the application was made with the two options that
    [SetupWithDBAndOpts] sets, and no other. *)
Theorem Setup_two_options privVal senderPrivKey isCheckTx patch app opts :
  Setup privVal senderPrivKey isCheckTx patch = Returns (app, opts) →
  ∀ k, is_Some (opts !! k) ↔
       k = server_FlagInvCheckPeriod ∨ k = flags_FlagHome.
Proof.
  unfold Setup, SetupWithDB.
  intros (-> & _)%SetupWithDBAndOpts_inv k. simpl.
  rewrite !lookup_insert_is_Some', lookup_empty, is_Some_alt.
  split; [intros [?|[?|[]]]|intros [?|?]]; auto.
Qed.
End setup_facts.

(** ** The scenarios of the helpers *)

Section helper_scenarios.
Import HelperScenario.

Example RandomAccounts_two :
  RandomAccounts (Some 7%nat) 2
  = Returns ([account_of_seed (replicate 15 x07);
              account_of_seed (replicate 15 x08)], Some 9%nat).
Proof. reflexivity. Qed.

Example RandomGenesisAccounts_two :
  RandomGenesisAccounts
    (Some {| SimulationState_Accounts :=
               [account_of_seed (replicate 15 x07);
                account_of_seed (replicate 15 x08)] |})
  = Returns
      [Some (GenesisAccount_eth
               {| EthAccount_BaseAccount := x02 :: replicate 15 x07;
                  EthAccount_CodeHash :=
                    String.string_of_list_byte (replicate 32 xc5) |});
       Some (GenesisAccount_eth
               {| EthAccount_BaseAccount := x02 :: replicate 15 x08;
                  EthAccount_CodeHash :=
                    String.string_of_list_byte (replicate 32 xc5) |})].
Proof. reflexivity. Qed.

Example StateFn_rawStateCb_atom :
  StateFn_rawStateCb test_codec "atom" raw_state
  = Returns
      (Some {[ "evm" := String.list_byte_of_string "atom";
               "gov" := [x07] ]}).
Proof. reflexivity. Qed.

Example genesisStateWithValSet_one_validator :
  genesisStateWithValSet test_codec genesis_gov one_validator [sender]
    [sender_balance]
  = Returns
      (Some {[ "gov" := [x07]; "auth" := [x01]; "staking" := [x02];
               "bank" := [x03] ]}).
Proof. reflexivity. Qed.

Example NewTestGenesisState_test :
  NewTestGenesisState test_privVal test_senderPrivKey test_codec
  = Returns
      (Some {[ "evm" := String.list_byte_of_string "aphoton";
               "auth" := [x01]; "staking" := [x02]; "bank" := [x03] ]}).
Proof. reflexivity. Qed.

(** Two accounts from the generator in state 7 and from a [nil]
    generator, and requests for a negative number of accounts and for
    [2^62] of them. *)
Lemma RandomAccounts_accounts_witness :
  RandomAccounts (Some 7%nat) (-1) = Panics panic_makeslice ∧
  RandomAccounts (Some 7%nat) (2 ^ 62) = Panics panic_makeslice ∧
  RandomAccounts None 2 = Panics panic_nil_dereference ∧
  RandomAccounts None 0 = Returns ([], None) ∧
  ∃ accs r',
    RandomAccounts (Some 7%nat) 2 = Returns (accs, Some r') ∧
    Z.of_nat (length accs) = 2.
Proof.
  split; [|split; [|split; [|split]]].
  - apply (proj1 (@RandomAccounts_accounts packages 7%nat (-1))).
    left. reflexivity.
  - apply (proj1 (@RandomAccounts_accounts packages 7%nat (2 ^ 62))).
    right. reflexivity.
  - apply (proj1 (proj2 (@RandomAccounts_accounts packages 7%nat 2))).
    split; [reflexivity|discriminate].
  - apply (proj1 (proj2 (proj2 (@RandomAccounts_accounts packages 7%nat 0)))).
  - destruct (proj2 (proj2 (proj2 (@RandomAccounts_accounts packages 7%nat 2))))
      as (accs & r' & Hrun & Hlen & _); [split; discriminate|].
    exists accs, r'. split; [exact Hrun|exact Hlen].
Defined.

(** One account and then two are the three accounts of one call. *)
Lemma RandomAccounts_append_witness :
  RandomAccounts (Some 7%nat) (1 + 2)
  = Returns ([account_of_seed (replicate 15 x07);
              account_of_seed (replicate 15 x08);
              account_of_seed (replicate 15 x09)], Some 10%nat).
Proof.
  apply (@RandomAccounts_append packages (Some 7%nat) 1 2
           [account_of_seed (replicate 15 x07)] (Some 8%nat)
           [account_of_seed (replicate 15 x08);
            account_of_seed (replicate 15 x09)] (Some 10%nat));
    [discriminate|discriminate|discriminate|reflexivity|reflexivity].
Defined.

(** The bank module and then the staking module with [atom]. *)
Lemma StateFn_moduleStateCb_last_staking_witness :
  StateFn_moduleStateCb_calls calls_bank_staking StateFn_bondDenom
    = Returns "atom" ∧
  "atom" = default StateFn_bondDenom (last (bond_denoms calls_bank_staking)).
Proof.
  split; [reflexivity|].
  apply (@StateFn_moduleStateCb_last_staking packages calls_bank_staking
           StateFn_bondDenom "atom").
  reflexivity.
Defined.

(** A raw state without the EVM module, and one with it. *)
Lemma StateFn_rawStateCb_only_evm_witness :
  StateFn_rawStateCb test_codec "atom" (Some {[ "gov" := [x07] ]})
    = Panics (panic_message "evm genesis state is missing") ∧
  ∃ rawState',
    StateFn_rawStateCb test_codec "atom" raw_state = Returns rawState' ∧
    rawmap_index rawState' "gov" = rawmap_index raw_state "gov".
Proof.
  split.
  - apply (proj1 (@StateFn_rawStateCb_only_evm packages codecs test_codec
                    "atom" (Some {[ "gov" := [x07] ]}))).
    reflexivity.
  - pose proof StateFn_rawStateCb_atom as Hrun.
    eexists. split; [exact Hrun|].
    destruct (proj2 (@StateFn_rawStateCb_only_evm packages codecs test_codec
                       "atom" raw_state) _ Hrun)
      as (_ & _ & _ & _ & _ & _ & _ & Hframe).
    apply (Hframe "gov"). discriminate.
Defined.

(** The denomination [aphoton] of the EVM module becomes [atom]. *)
Lemma StateFn_evm_denom_is_bond_denom_witness :
  ∃ rawState' bz evmState',
    StateFn_rawStateCb test_codec "atom" raw_state = Returns rawState' ∧
    rawmap_index rawState' "evm" = Some bz ∧
    Codec_UnmarshalJSON_evm test_codec bz = inr evmState' ∧
    EvmDenom (evm_Params evmState') = "atom".
Proof.
  assert (∀ g bz,
    Codec_MarshalJSON test_codec (Message_evm g) = inr bz →
    Codec_UnmarshalJSON_evm test_codec bz = inr g) as Hcodec.
  { intros [[] [denom []]] bz [= <-]. simpl.
    by rewrite String.string_of_list_byte_of_string. }
  pose proof StateFn_rawStateCb_atom as Hrun.
  destruct (@StateFn_evm_denom_is_bond_denom packages codecs test_codec
              staking_atom "" "atom" raw_state _ Hcodec eq_refl Hrun)
    as (_ & _ & bz & evmState' & _ & _ & Hevm' & Hdecode & Hdenom & _).
  eexists _, bz, evmState'.
  split; [exact Hrun|]. split; [exact Hevm'|]. split; [exact Hdecode|].
  exact Hdenom.
Defined.

(** A validator and no genesis account. *)
Lemma genesisStateWithValSet_no_account_witness :
  genesisStateWithValSet test_codec genesis_gov one_validator []
    [sender_balance]
  = Panics panic_index.
Proof.
  destruct (@genesisStateWithValSet_no_account packages codecs test_codec
              genesis_gov one_validator [sender_balance] _ [] eq_refl)
    as [_ Hindex].
  eapply Hindex; reflexivity.
Defined.

(** The entry of the module [gov] is kept. *)
Lemma genesisStateWithValSet_other_modules_witness :
  ∃ m m',
    genesis_gov = Some m ∧
    genesisStateWithValSet test_codec genesis_gov one_validator [sender]
      [sender_balance] = Returns (Some m') ∧
    m' !! "gov" = m !! "gov".
Proof.
  pose proof genesisStateWithValSet_one_validator as Hrun.
  destruct (@genesisStateWithValSet_other_modules packages codecs _ _ _ _ _
              _ Hrun)
    as (m & m' & Hm & Hm' & _ & _ & _ & Hframe).
  exists m, m'. split; [exact Hm|]. split.
  - etrans; [exact Hrun|]. f_equal. exact Hm'.
  - apply (Hframe "gov"); discriminate.
Defined.

(** One validator gives one delegation, from the sender. *)
Lemma genesisStateWithValSet_staking_witness :
  ∃ genesisState' stakingGenesis,
    genesisStateWithValSet test_codec genesis_gov one_validator [sender]
      [sender_balance] = Returns genesisState' ∧
    staking_Delegations stakingGenesis = [([x0c], [x0a], 1)].
Proof.
  pose proof genesisStateWithValSet_one_validator as Hrun.
  assert (stakingtypes_ModuleName ≠ banktypes_ModuleName) as Hnames
    by discriminate.
  destruct (@genesisStateWithValSet_staking packages codecs _ _ _ _ _ _
              Hnames Hrun)
    as (stakingGenesis & bz & _ & _ & _ & _ & _ & Hdelegations).
  eexists _, stakingGenesis. split; [exact Hrun|].
  exact (Hdelegations sender eq_refl).
Defined.

(** One validator: the supply is the total of the two balances. *)
Lemma genesisStateWithValSet_bank_witness :
  ∃ genesisState' bankGenesis,
    genesisStateWithValSet test_codec genesis_gov one_validator [sender]
      [sender_balance] = Returns genesisState' ∧
    bank_Balances bankGenesis = [sender_balance; bonded_pool_balance] ∧
    bank_Supply bankGenesis = balances_total (bank_Balances bankGenesis).
Proof.
  pose proof genesisStateWithValSet_one_validator as Hrun.
  destruct (@genesisStateWithValSet_bank packages codecs _ _ _ _ _ _ Hrun)
    as (bankGenesis & bz & _ & _ & Hbalances & _ & Hsupply).
  eexists _, bankGenesis. split; [exact Hrun|].
  split; [exact Hbalances|]. apply Hsupply. reflexivity.
Defined.

(** The test genesis state of a validator key and a sender key. *)
Lemma NewTestGenesisState_supply_witness :
  ∃ genesisState' bankGenesis,
    NewTestGenesisState test_privVal test_senderPrivKey test_codec
      = Returns genesisState' ∧
    bank_Supply bankGenesis = balances_total (bank_Balances bankGenesis).
Proof.
  pose proof NewTestGenesisState_test as Hrun.
  destruct (proj2 (@NewTestGenesisState_supply packages codecs test_privVal
                     test_senderPrivKey test_codec)
              test_pubKey _ eq_refl eq_refl Hrun)
    as (bankGenesis & bz & sender & _ & _ & _ & _ & Hsupply).
  eexists _, bankGenesis. split; [exact Hrun|exact Hsupply].
Defined.
(** The caller sets a home and a pruning strategy: the home is replaced,
    the strategy is kept. *)
Lemma SetupWithDBAndOpts_options_witness :
  ∃ app opts,
    SetupWithDBAndOpts test_privVal test_senderPrivKey false None ()
      caller_options = Returns (app, opts) ∧
    opts !! "home" = Some (value_string "/home/.ethermintd") ∧
    opts !! "pruning" = default ∅ caller_options !! "pruning".
Proof.
  assert (∃ app opts,
    SetupWithDBAndOpts test_privVal test_senderPrivKey false None ()
      caller_options = Returns (app, opts)) as (app & opts & Hrun)
    by (eexists _, _; reflexivity).
  destruct (@SetupWithDBAndOpts_options packages codecs application _ _ _ _
              _ _ _ _ Hrun) as (Hhome & _ & Hframe & _).
  exists app, opts. split; [exact Hrun|]. split; [exact Hhome|].
  apply (Hframe "pruning"); discriminate.
Defined.

(** The set-up for checking transactions. *)
Lemma Setup_two_options_witness :
  ∃ app opts,
    Setup test_privVal test_senderPrivKey true None = Returns (app, opts) ∧
    (is_Some (opts !! "home") ↔
     "home" = server_FlagInvCheckPeriod ∨ "home" = flags_FlagHome).
Proof.
  assert (∃ app opts,
    Setup test_privVal test_senderPrivKey true None = Returns (app, opts))
    as (app & opts & Hrun) by (eexists _, _; reflexivity).
  exists app, opts. split; [exact Hrun|].
  apply (@Setup_two_options packages codecs application _ _ _ _ _ _ Hrun).
Defined.
End helper_scenarios.
